(** * conductor: BMS telemetry decoder and poll sequencer (main.go)

    A shallow embedding of [main.go] and the properties of its frame
    decoder ([parseBatteryInfo], [parseVersion], [binaryToInt],
    [binaryToIntBigEndian], [getBatteryStatus]) and of its poll sequencer
    ([readBMS]).

    Conventions of the embedding:
    - a Go [[]byte] that is resliced is a [Slice]: its elements, and the
      bytes of its backing array between its length and its capacity.  A
      slice expression is bounded by the capacity, an index expression by
      the length.  A function that only ranges over its argument, indexes
      it or takes its length receives the elements, a [list byte];
    - Go [int] and [int64] are 64-bit two's-complement integers, kept as
      [Z] with the wrap-around written out ([wrap64]);
    - Go [float64] is IEEE 754 binary64, kept as [spec_float] with the
      operations of [SpecFloat] at precision 53 and exponent bound 1024;
    - no function of the program returns an error.  A decoder either
      returns or does not: a run-time panic (slice bounds or index out of
      range), which nothing recovers, and [log.Fatalf] are the two ways it
      ends the process instead; [Result] keeps the three outcomes apart. *)

From Stdlib Require Import ZArith QArith Qround Lia List String Ascii Strings.Byte Bool.
From Stdlib Require Import Floats.SpecFloat.
From stdpp Require Import base option list gmap strings pretty.

Close Scope Q_scope.
Local Open Scope Z_scope.

(** * The frame decoder *)

(** ** The outcomes of a call *)

(** [Panic]: the Go run-time panics (slice bounds or index out of range);
    the program never recovers, so the process ends.
    [Fatal]: [log.Fatalf] ends the process. *)
Inductive Abort : Type :=
  | Panic
  | Fatal.

(** [Ok a]: the call returns [a].  [Err e]: the call does not return. *)
Inductive Result (A : Type) : Type :=
  | Ok (a : A)
  | Err (e : Abort).
Arguments Ok {A} a.
Arguments Err {A} e.

#[global] Instance Result_ret : MRet Result := fun A a => Ok a.
#[global] Instance Result_bind : MBind Result := fun A B f r =>
  match r with
  | Ok a => f a
  | Err e => Err e
  end.

(** ** Byte slices *)

Definition byte_val (b : byte) : Z := Z.of_N (Byte.to_N b).

#[global] Instance byte_eq_decision : EqDecision byte := Byte.byte_eq_dec.

(** A slice: [elems] are its [len] elements, [spare] the bytes of the
    backing array that follow them, up to the capacity. *)
Record Slice : Type := mkSlice {
  elems : list byte;
  spare : list byte
}.

Definition len (data : Slice) : nat := length (elems data).
Definition cap (data : Slice) : nat := (length (elems data) + length (spare data))%nat.

(** The bytes of the backing array from the start of the slice to its
    capacity. *)
Definition backing (data : Slice) : list byte := elems data ++ spare data.

(** [data[lo:hi]]: panics unless [lo <= hi <= cap(data)]; the result
    shares the backing array, so its capacity is [cap(data) - lo]. *)
Definition slice (data : Slice) (lo hi : nat) : Result Slice :=
  if ((lo <=? hi)%nat && (hi <=? cap data)%nat)%bool
  then Ok (mkSlice (take (hi - lo) (drop lo (backing data)))
                   (drop hi (backing data)))
  else Err Panic.

(** [data[lo:]]: the upper bound is [len(data)]; panics unless
    [lo <= len(data)]. *)
Definition slice_from (data : Slice) (lo : nat) : Result Slice :=
  if (lo <=? len data)%nat
  then Ok (mkSlice (drop lo (elems data)) (spare data))
  else Err Panic.

(** [data[i]]: panics unless [i < len(data)]. *)
Definition index (data : list byte) (i : nat) : Result byte :=
  match data !! i with
  | Some b => Ok b
  | None => Err Panic
  end.

(** ** Machine integers *)

(** Reduction of an integer to the signed 64-bit range. *)
Definition wrap64 (z : Z) : Z := (z + 2 ^ 63) mod 2 ^ 64 - 2 ^ 63.

(** Go [int] on the supported (64-bit) targets; [to_int] is the
    conversion [int(x)]. *)
Definition to_int (z : Z) : Z := wrap64 z.

(** [reverseBytes]: [reversed[len(data)-i-1] = v] for every index. *)
Definition reverseBytes (data : list byte) : list byte :=
  foldl (fun reversed iv =>
           <[ (length data - fst iv - 1)%nat := snd iv ]> reversed)
        (replicate (length data) x00) (imap pair data).

(** [binary.BigEndian.Uint32] on a slice of at least four bytes. *)
Definition BigEndian_Uint32 (b : list byte) : Result Z :=
  b3 ← index b 3;
  b0 ← index b 0;
  b1 ← index b 1;
  b2 ← index b 2;
  Ok (Z.lor (Z.lor (Z.lor (byte_val b3) (Z.shiftl (byte_val b2) 8))
                   (Z.shiftl (byte_val b1) 16))
            (Z.shiftl (byte_val b0) 24)).

Definition binaryToIntBigEndian (data : list byte) : Result Z :=
  if negb (length data =? 4)%nat then Err Fatal
  else
    let reversedData := reverseBytes data in
    u ← BigEndian_Uint32 reversedData;
    Ok (to_int u).

(** [binaryToInt]: [result = (result << 8) | int64(b)] over the bytes,
    in [int64]. *)
Definition binaryToInt (data : list byte) : Z :=
  foldl (fun result b => wrap64 (Z.lor (Z.shiftl result 8) (byte_val b))) 0 data.

(** ** float64 *)

Definition prec : Z := 53.
Definition emax : Z := 1024.

(** The conversion [float64(n)] of an integer (round to nearest even). *)
Definition of_int (n : Z) : spec_float := binary_normalize prec emax n 0 false.

Definition fmul : spec_float -> spec_float -> spec_float := SFmul prec emax.
Definition fdiv : spec_float -> spec_float -> spec_float := SFdiv prec emax.
Definition feqb : spec_float -> spec_float -> bool := SFeqb.
Definition fltb : spec_float -> spec_float -> bool := SFltb.
Definition fleb : spec_float -> spec_float -> bool := SFleb.

Definition fzero : spec_float := S754_zero false.

(** [math.Round] of the Go library: the nearest integer, halves away
    from zero; zeros, infinities and NaN are returned unchanged. *)
Definition Round (x : spec_float) : spec_float :=
  match x with
  | S754_finite s m e =>
      if 0 <=? e then x
      else
        let q := (Zpos m + 2 ^ (- e - 1)) / 2 ^ (- e) in
        if q =? 0 then S754_zero s
        else binary_normalize prec emax (if s then - q else q) 0 s
  | _ => x
  end.

(** ** hex.EncodeToString *)

Definition hextable : string := "0123456789abcdef".

Definition hex_digit (v : Z) : ascii :=
  default "0"%char (String.get (Z.to_nat v) hextable).

Definition EncodeToString (src : list byte) : string :=
  foldr (fun v dst =>
           String (hex_digit (Z.shiftr (byte_val v) 4))
                  (String (hex_digit (Z.land (byte_val v) 15)) dst))
        EmptyString src.

(** [s[i]] on a Go string: panics unless [i < len(s)]. *)
Definition string_index (s : string) (i : nat) : Result ascii :=
  match String.get i s with
  | Some c => Ok c
  | None => Err Panic
  end.

(** ** The battery record *)

Record BatteryInfo : Type := mkBatteryInfo {
  PackVoltage : Z;
  Voltage : Z;
  BatteryPack : gmap Z spec_float;
  Current : spec_float;
  Watt : spec_float;
  RemainAh : spec_float;
  FactoryAh : spec_float;
  CellTemperature : Z;
  MosfetTemperature : Z;
  Heat : string;
  DischargeSwitchState : Z;
  ProtectState : string;
  FailureState : list byte;      (* the elements of [data[80:84]] *)
  EquilibriumState : Z;
  BatteryState : Z;
  SOC : Z;
  SOH : Z;
  DischargesCount : Z;
  DischargesAHCount : Z;
  BatteryStatus : string;
  BalanceStatus : string;
  CellStatus : string;
  HeatStatus : string
}.

Definition set_BatteryStatus (s : string) (b : BatteryInfo) : BatteryInfo :=
  mkBatteryInfo (PackVoltage b) (Voltage b) (BatteryPack b) (Current b)
    (Watt b) (RemainAh b) (FactoryAh b) (CellTemperature b)
    (MosfetTemperature b) (Heat b) (DischargeSwitchState b) (ProtectState b)
    (FailureState b) (EquilibriumState b) (BatteryState b) (SOC b) (SOH b)
    (DischargesCount b) (DischargesAHCount b)
    s (BalanceStatus b) (CellStatus b) (HeatStatus b).

Definition set_BalanceStatus (s : string) (b : BatteryInfo) : BatteryInfo :=
  mkBatteryInfo (PackVoltage b) (Voltage b) (BatteryPack b) (Current b)
    (Watt b) (RemainAh b) (FactoryAh b) (CellTemperature b)
    (MosfetTemperature b) (Heat b) (DischargeSwitchState b) (ProtectState b)
    (FailureState b) (EquilibriumState b) (BatteryState b) (SOC b) (SOH b)
    (DischargesCount b) (DischargesAHCount b)
    (BatteryStatus b) s (CellStatus b) (HeatStatus b).

Definition set_CellStatus (s : string) (b : BatteryInfo) : BatteryInfo :=
  mkBatteryInfo (PackVoltage b) (Voltage b) (BatteryPack b) (Current b)
    (Watt b) (RemainAh b) (FactoryAh b) (CellTemperature b)
    (MosfetTemperature b) (Heat b) (DischargeSwitchState b) (ProtectState b)
    (FailureState b) (EquilibriumState b) (BatteryState b) (SOC b) (SOH b)
    (DischargesCount b) (DischargesAHCount b)
    (BatteryStatus b) (BalanceStatus b) s (HeatStatus b).

Definition set_HeatStatus (s : string) (b : BatteryInfo) : BatteryInfo :=
  mkBatteryInfo (PackVoltage b) (Voltage b) (BatteryPack b) (Current b)
    (Watt b) (RemainAh b) (FactoryAh b) (CellTemperature b)
    (MosfetTemperature b) (Heat b) (DischargeSwitchState b) (ProtectState b)
    (FailureState b) (EquilibriumState b) (BatteryState b) (SOC b) (SOH b)
    (DischargesCount b) (DischargesAHCount b)
    (BatteryStatus b) (BalanceStatus b) (CellStatus b) s.

(** ** getBatteryStatus *)

Definition getBatteryStatus (battery : BatteryInfo) : string :=
  let status := EmptyString in
  let status :=
    if feqb (Current battery) fzero then "Standby"%string
    else if fltb fzero (Current battery) then "Charging"%string
    else if fltb (Current battery) fzero then "Discharging"%string
    else status in
  let status :=
    if ((100 <=? SOC battery) || (BatteryState battery =? 4))%bool
    then "Full Charge"%string else status in
  status.

(** ** parseBatteryInfo *)

(** The loop over the cell block: [i] is the loop index, [pack] the map
    [battery.BatteryPack] so far.  Every round adds two to [i], so
    [length batPack] rounds of fuel are never used up. *)
Fixpoint cell_loop (fuel : nat) (batPack : list byte) (i : nat)
    (pack : gmap Z spec_float) : Result (gmap Z spec_float) :=
  match fuel with
  | O => Ok pack
  | S fuel' =>
      if (i <? length batPack)%nat then
        hi ← index batPack (i + 1);
        lo ← index batPack i;
        let cellVoltage := to_int (binaryToInt [hi; lo]) in
        if cellVoltage =? 0 then cell_loop fuel' batPack (i + 2) pack
        else
          let cell := Z.of_nat i / 2 + 1 in
          cell_loop fuel' batPack (i + 2)
            (<[ cell := fdiv (of_int cellVoltage) (of_int 1000) ]> pack)
      else Ok pack
  end.

Definition parseBatteryInfo (data : Slice) : Result BatteryInfo :=
  (* fmt.Println("RAW VOLTAGE: ", hex.EncodeToString(data[12:16])) *)
  raw ← slice data 12 16;
  s8 ← slice data 8 12;
  packVoltage ← binaryToIntBigEndian (elems s8);
  s12 ← slice data 12 16;
  voltage ← binaryToIntBigEndian (elems s12);
  batPack ← slice data 16 48;
  pack ← cell_loop (len batPack) (elems batPack) 0 ∅;
  s48 ← slice data 48 52;
  let current := to_int (binaryToInt (elems s48)) in
  let Current_ := fdiv (of_int current) (of_int 1000) in
  let Watt_ :=
    fdiv (Round (fmul (fdiv (fmul (of_int voltage) Current_) (of_int 10000))
                      (of_int 100)))
         (of_int 100) in
  s62 ← slice data 62 64;
  s64 ← slice data 64 66;
  s52 ← slice data 52 54;
  s54 ← slice data 54 56;
  s68 ← slice data 68 72;
  b68 ← index (elems data) 68;
  let dischargeSwitchState :=
    if 8 <=? Z.shiftr (byte_val b68) 7 then 0 else 1 in
  s76 ← slice data 76 80;
  s80 ← slice data 80 84;
  s84 ← slice data 84 88;
  s88 ← slice data 88 90;
  s90 ← slice data 90 92;
  s92 ← slice data 92 96;
  s96 ← slice data 96 100;
  s100 ← slice data 100 104;
  let battery :=
    mkBatteryInfo packVoltage voltage pack Current_ Watt_
      (fdiv (of_int (binaryToInt (elems s62))) (of_int 100))
      (fdiv (of_int (binaryToInt (elems s64))) (of_int 100))
      (to_int (binaryToInt (elems s52))) (to_int (binaryToInt (elems s54)))
      (EncodeToString (elems s68)) dischargeSwitchState
      (EncodeToString (elems s76)) (elems s80)
      (to_int (binaryToInt (elems s84))) (to_int (binaryToInt (elems s88)))
      (to_int (binaryToInt (elems s90))) (to_int (binaryToInt (elems s92)))
      (to_int (binaryToInt (elems s96))) (to_int (binaryToInt (elems s100)))
      EmptyString EmptyString EmptyString EmptyString in
  let battery := set_BatteryStatus (getBatteryStatus battery) battery in
  let battery :=
    set_BalanceStatus
      (if 0 <? EquilibriumState battery
       then "Battery cells are being balanced for better performance."
       else "All cells are well-balanced.") battery in
  f0 ← index (FailureState battery) 0;
  cellFault ←
    (if 0 <? byte_val f0 then Ok true
     else f1 ← index (FailureState battery) 1; Ok (0 <? byte_val f1));
  let battery :=
    set_CellStatus
      (if cellFault : bool
       then "Fault alert! There may be a problem with cell."
       else "Battery is in optimal working condition.") battery in
  h7 ← string_index (Heat battery) 7;
  let battery :=
    set_HeatStatus
      (if Ascii.eqb h7 "2" then "Self-heating is on" else "Self-heating is off")
      battery in
  Ok battery.

(** ** parseVersion *)

(** [fmt.Sprintf("%d", n)]: the decimal numeral of an integer. *)
Definition Sprintf_d (n : Z) : string := pretty n.

(** The loop over every other byte of the version block: [i] is the loop
    index, [hardwareVersion] the string so far.  Every round adds two to
    [i], so [length start] rounds of fuel are never used up. *)
Fixpoint hardware_loop (fuel : nat) (start : list byte) (i : nat)
    (hardwareVersion : string) : Result string :=
  match fuel with
  | O => Ok hardwareVersion
  | S fuel' =>
      if (i <? length start)%nat then
        ver ← index start i;
        if ((32 <=? byte_val ver) && (byte_val ver <=? 126))%bool
        then hardware_loop fuel' start (i + 2)
               (String.append hardwareVersion
                  (String (ascii_of_byte ver) EmptyString))
        else hardware_loop fuel' start (i + 2) hardwareVersion
      else Ok hardwareVersion
  end.

Definition parseVersion (data : Slice) : Result (string * string * string) :=
  start ← slice_from data 8;
  s0 ← slice start 0 2;
  s2 ← slice start 2 4;
  s4 ← slice start 4 6;
  let firmwareVersion :=
    String.append (Sprintf_d (binaryToInt (elems s0)))
      (String.append "."
         (String.append (Sprintf_d (binaryToInt (elems s2)))
            (String.append "." (Sprintf_d (binaryToInt (elems s4)))))) in
  s6 ← slice start 6 8;
  b8 ← index (elems start) 8;
  b9 ← index (elems start) 9;
  let manufactureDate :=
    String.append (Sprintf_d (binaryToInt (elems s6)))
      (String.append "-"
         (String.append (Sprintf_d (byte_val b8))
            (String.append "-" (Sprintf_d (byte_val b9))))) in
  hardwareVersion ← hardware_loop (len start) (elems start) 0 EmptyString;
  Ok (firmwareVersion, manufactureDate, hardwareVersion).

(** * The poll sequencer *)

(** ** The command catalog *)

Definition pqCommands : gmap string string :=
  list_to_map
    [ ("GET_VERSION", "000004011655AA1A");
      ("GET_BATTERY_INFO", "000004011355AA17");
      ("SERIAL_NUMBER", "000004011055AA14") ]%string.

(** ** hex.DecodeString *)

Definition fromHexChar (c : ascii) : option Z :=
  let n := Z.of_N (N_of_ascii c) in
  if ((48 <=? n) && (n <=? 57))%bool then Some (n - 48)
  else if ((97 <=? n) && (n <=? 102))%bool then Some (n - 97 + 10)
  else if ((65 <=? n) && (n <=? 70))%bool then Some (n - 65 + 10)
  else None.

(** [None] stands for a non-nil error (odd length or a character that is
    not a hexadecimal digit). *)
Fixpoint DecodeString (s : string) : option (list byte) :=
  match s with
  | EmptyString => Some []
  | String _ EmptyString => None
  | String a (String b rest) =>
      match fromHexChar a, fromHexChar b with
      | Some h, Some l =>
          match Byte.of_N (Z.to_N (Z.lor (Z.shiftl h 4) l)), DecodeString rest with
          | Some x, Some bytes => Some (x :: bytes)
          | _, _ => None
          end
      | _, _ => None
      end
  end.

(** ** The notification handler *)

(** What a handler does with a payload: the decoders it runs on it, each
    with its outcome (a record that is then printed, or the failure of the
    decoder).  The handler of [readBMS] only ever runs [parseBatteryInfo];
    the other two events are those the specification expects for the
    version and the serial-number commands. *)
Inductive HandlerEvent : Type :=
  | DecodedBatteryInfo (r : Result BatteryInfo)
  | DecodedVersion (r : Result (string * string * string))
  | HandledSerialNumber (data : Slice).

Definition Handler : Type := Slice -> list HandlerEvent.

(** The closure [notificationHandler] of [readBMS]; [name] is the loop
    variable it captures. *)
Definition notificationHandler (name : string) : Handler :=
  fun data =>
    if String.eqb name "GET_BATTERY_INFO"
    then [DecodedBatteryInfo (parseBatteryInfo data)]
    else [].

(** ** The transport and the calls made on it *)

(** A Go [error]: [None] is [nil]. *)
Definition error : Type := option string.

(** The characteristic of the Bluetooth library, with the state [T] of
    the outside world: [EnableNotifications] (a [nil] callback is [None]),
    [WriteWithoutResponse] and the passing of the response window. *)
Record Transport (T : Type) : Type := mkTransport {
  enableNotifications : option Handler -> T -> T * error;
  writeWithoutResponse : list byte -> T -> T * error;
  sleep : T -> T
}.
Arguments enableNotifications {T} _ _ _.
Arguments writeWithoutResponse {T} _ _ _.
Arguments sleep {T} _ _.

(** The calls of [readBMS] in program order.  A callback is recorded by
    the command name its closure captured. *)
Inductive Event : Type :=
  | EvEnableNotifications (callback : option string) (err : error)
  | EvWriteWithoutResponse (commandBytes : list byte) (err : error)
  | EvSleep
  | EvPrintf (format : string) (name : string).

(** State of the outside world and log of the calls made. *)
Definition IO (T A : Type) : Type := T -> A * T * list Event.

#[global] Instance IO_ret (T : Type) : MRet (IO T) :=
  fun A a st => (a, st, []).
#[global] Instance IO_bind (T : Type) : MBind (IO T) :=
  fun A B f m st =>
    let '(a, st1, log1) := m st in
    let '(b, st2, log2) := f a st1 in
    (b, st2, log1 ++ log2).

Section Sequencer.
Context {T : Type} (char : Transport T).

Definition EnableNotifications (name : option string) : IO T error :=
  fun st =>
    let '(st', err) := enableNotifications char (notificationHandler <$> name) st in
    (err, st', [EvEnableNotifications name err]).

Definition WriteWithoutResponse (commandBytes : list byte) : IO T error :=
  fun st =>
    let '(st', err) := writeWithoutResponse char commandBytes st in
    (err, st', [EvWriteWithoutResponse commandBytes err]).

Definition Sleep : IO T unit :=
  fun st => (tt, sleep char st, [EvSleep]).

Definition Printf (format name : string) : IO T unit :=
  fun st => (tt, st, [EvPrintf format name]).

(** One round of the loop of [readBMS], for the entry [name], [cmd] of
    the catalog. *)
Definition poll (name cmd : string) : IO T unit :=
  match DecodeString cmd with
  | None => Printf "Invalid command format for %s: %v" name
  | Some commandBytes =>
      err ← EnableNotifications (Some name);
      match err with
      | Some _ => Printf "Failed to enable notifications for %s: %v" name
      | None =>
          err ← WriteWithoutResponse commandBytes;
          match err with
          | Some _ => Printf "Failed to send command %s: %v" name
          | None =>
              _ ← Printf "Sent command: %s" name;
              _ ← Sleep;
              err ← EnableNotifications None;
              match err with
              | Some _ => Printf "Failed to close notifications for %s: %v" name
              | None => mret tt
              end
          end
      end
  end.

(** [readBMS]; [order] is the order in which [range pqCommands] yields
    the entries of the catalog. *)
Fixpoint readBMS (order : list (string * string)) : IO T unit :=
  match order with
  | [] => mret tt
  | (name, cmd) :: rest => _ ← poll name cmd; readBMS rest
  end.
End Sequencer.

(** * Sample inputs *)

(** ** Frames

    [charging_frame]: a battery-info response of 104 bytes with a pack of
    four cells at 3.325 V, 13.3 V in total, a current field of
    [00 00 09 c4] (2500) and a state of charge of 85.
    [discharging_frame]: the same frame with the current field
    [ff ff f6 3c], which is -2500 as a signed 32-bit integer. *)

Definition charging_frame : list byte :=
  [
   x00; x00; x65; x01; x93; x55; xaa; x00;
   xf4; x33; x00; x00; xf4; x33; x00; x00;
   xfd; x0c; xfd; x0c; xfd; x0c; xfd; x0c;
   x00; x00; x00; x00; x00; x00; x00; x00;
   x00; x00; x00; x00; x00; x00; x00; x00;
   x00; x00; x00; x00; x00; x00; x00; x00;
   x00; x00; x09; xc4; x00; x19; x00; x1a;
   x00; x00; x00; x00; x00; x00; x27; x10;
   x27; x10; x00; x00; x00; x00; x00; x80;
   x00; x00; x00; x00; x00; x00; x00; x00;
   x00; x00; x00; x00; x00; x00; x00; x00;
   x00; x01; x00; x55; x00; x00; x00; x64;
   x00; x00; x00; x0c; x00; x00; x04; xd2 ].

Definition discharging_frame : list byte :=
  [
   x00; x00; x65; x01; x93; x55; xaa; x00;
   xf4; x33; x00; x00; xf4; x33; x00; x00;
   xfd; x0c; xfd; x0c; xfd; x0c; xfd; x0c;
   x00; x00; x00; x00; x00; x00; x00; x00;
   x00; x00; x00; x00; x00; x00; x00; x00;
   x00; x00; x00; x00; x00; x00; x00; x00;
   xff; xff; xf6; x3c; x00; x19; x00; x1a;
   x00; x00; x00; x00; x00; x00; x27; x10;
   x27; x10; x00; x00; x00; x00; x00; x80;
   x00; x00; x00; x00; x00; x00; x00; x00;
   x00; x00; x00; x00; x00; x00; x00; x00;
   x00; x01; x00; x55; x00; x00; x00; x64;
   x00; x00; x00; x0c; x00; x00; x04; xd2 ].

(** [rounding_frame]: [charging_frame] with the voltage field
    [16 58 b1 02] (45176854, least significant byte first) and the current
    field [ae de dd da] (2933841370). *)
Definition rounding_frame : list byte :=
  [
   x00; x00; x65; x01; x93; x55; xaa; x00;
   xf4; x33; x00; x00; x16; x58; xb1; x02;
   xfd; x0c; xfd; x0c; xfd; x0c; xfd; x0c;
   x00; x00; x00; x00; x00; x00; x00; x00;
   x00; x00; x00; x00; x00; x00; x00; x00;
   x00; x00; x00; x00; x00; x00; x00; x00;
   xae; xde; xdd; xda; x00; x19; x00; x1a;
   x00; x00; x00; x00; x00; x00; x27; x10;
   x27; x10; x00; x00; x00; x00; x00; x80;
   x00; x00; x00; x00; x00; x00; x00; x00;
   x00; x00; x00; x00; x00; x00; x00; x00;
   x00; x01; x00; x55; x00; x00; x00; x64;
   x00; x00; x00; x0c; x00; x00; x04; xd2 ].

(** A buffer of 103 bytes with room for one more: the first 103 bytes of
    [charging_frame] as elements, its last byte in the spare capacity. *)
Definition short_with_capacity : Slice :=
  mkSlice (take 103 charging_frame) (drop 103 charging_frame).

(** A version response of 24 bytes: firmware 1.2.3, date 2024-5-17 and the
    characters [B], [M], [S] among the even positions of the block. *)
Definition version_frame : list byte :=
  [ x00; x00; x0e; x01; x16; x55; xaa; x00;
    x00; x01; x00; x02; x00; x03; x07; xe8;
    x05; x11; x42; x00; x4d; x7f; x53; x00 ].

(** ** A transport *)

(** A transport that answers the successive calls with the errors of a
    script, and with [nil] once the script is used up. *)
Definition scripted : Transport (list error) :=
  mkTransport (list error)
    (fun _ script => (tail script, default None (head script)))
    (fun _ script => (tail script, default None (head script)))
    (fun script => script).

(** The catalog in one of the orders in which [range] may yield it, a
    script on which the second call (the write of GET_VERSION) fails, and
    the calls that [readBMS] then makes after that write. *)
Definition catalog_order : list (string * string) :=
  [ ("GET_VERSION", "000004011655AA1A");
    ("GET_BATTERY_INFO", "000004011355AA17");
    ("SERIAL_NUMBER", "000004011055AA14") ]%string.

Definition first_write_fails : list error :=
  [None; Some "write failed"%string].

Definition log_after_failed_write : list Event :=
  [ EvPrintf "Failed to send command %s: %v" "GET_VERSION";
    EvEnableNotifications (Some "GET_BATTERY_INFO"%string) None;
    EvWriteWithoutResponse [x00; x00; x04; x01; x13; x55; xaa; x17] None;
    EvPrintf "Sent command: %s" "GET_BATTERY_INFO";
    EvSleep;
    EvEnableNotifications None None;
    EvEnableNotifications (Some "SERIAL_NUMBER"%string) None;
    EvWriteWithoutResponse [x00; x00; x04; x01; x10; x55; xaa; x14] None;
    EvPrintf "Sent command: %s" "SERIAL_NUMBER";
    EvSleep;
    EvEnableNotifications None None ].

(** * The statements of the specification

    The definitions of this part follow the words of the specification;
    the theorems compare them with the decoder and the sequencer above. *)

(** ** The decoder *)

(** The byte at an offset of a buffer ([x00] beyond its end). *)
Definition byte_at (data : list byte) (i : nat) : byte :=
  default x00 (data !! i).

(** A 32-bit pattern read as a two's-complement signed integer. *)
Definition signed32 (u : Z) : Z := if u <? 2 ^ 31 then u else u - 2 ^ 32.

(** The value of the four bytes at offsets 12 to 15 after byte reversal:
    the first byte is the least significant. *)
Definition voltage_field (data : list byte) : Z :=
  byte_val (byte_at data 12) + byte_val (byte_at data 13) * 2 ^ 8 +
  byte_val (byte_at data 14) * 2 ^ 16 + byte_val (byte_at data 15) * 2 ^ 24.

(** The big-endian value of the four bytes at offsets 48 to 51. *)
Definition current_field (data : list byte) : Z :=
  byte_val (byte_at data 48) * 2 ^ 24 + byte_val (byte_at data 49) * 2 ^ 16 +
  byte_val (byte_at data 50) * 2 ^ 8 + byte_val (byte_at data 51).

(** The current as the specification words it: the field read as a signed
    32-bit integer, divided by 1000. *)
Definition spec_Current (data : list byte) : spec_float :=
  fdiv (of_int (signed32 (current_field data))) (of_int 1000).

(** The number that a float stands for, as a fraction (0 for the
    infinities and NaN). *)
Definition exact (x : spec_float) : Q :=
  match x with
  | S754_finite s m e =>
      let n := if s then Zneg m else Zpos m in
      if 0 <=? e then inject_Z (n * 2 ^ e)
      else Qmake n (Z.to_pos (2 ^ (- e)))
  | _ => inject_Z 0
  end.

(** The integer nearest to a fraction, halves away from zero. *)
Definition nearest_int (q : Q) : Z :=
  if Qle_bool (inject_Z 0) q
  then Qfloor (Qplus q (Qmake 1 2))
  else Qceiling (Qminus q (Qmake 1 2)).

(** [round(x, 2)]: the number of hundredths nearest to the value of [x],
    as a float64 again (the float64 nearest to that many hundredths). *)
Definition round2 (x : spec_float) : spec_float :=
  fdiv (of_int (nearest_int (Qmult (inject_Z 100) (exact x)))) (of_int 100).

(** [voltage * (current_raw / 1000) / 10000] in float64. *)
Definition spec_product (voltage current_raw : Z) : spec_float :=
  fdiv (fmul (of_int voltage) (fdiv (of_int current_raw) (of_int 1000)))
       (of_int 10000).

(** [round(voltage * (current_raw / 1000) / 10000, 2)]. *)
Definition spec_Watt (voltage current_raw : Z) : spec_float :=
  round2 (spec_product voltage current_raw).

(** The raw value of cell [k] (counted from 1) of a frame: the pair of
    bytes at offset [16 + 2 (k - 1)], low byte before high byte. *)
Definition cell_raw (data : list byte) (k : Z) : Z :=
  byte_val (byte_at data (Z.to_nat (16 + 2 * (k - 1)))) +
  256 * byte_val (byte_at data (Z.to_nat (16 + 2 * (k - 1) + 1))).

(** Printable ASCII, 0x20 to 0x7E. *)
Definition printable (b : byte) : bool :=
  (0x20 <=? byte_val b) && (byte_val b <=? 0x7e).

(** The elements at the even positions 0, 2, 4, ... of a list. *)
Fixpoint even_positions {A : Type} (l : list A) : list A :=
  match l with
  | [] => []
  | [x] => [x]
  | x :: _ :: rest => x :: even_positions rest
  end.

Definition string_of_bytes (l : list byte) : string :=
  foldr (fun b s => String (ascii_of_byte b) s) EmptyString l.

(** The hardware version as the specification words it. *)
Definition spec_hardwareVersion (data : list byte) : string :=
  string_of_bytes (List.filter printable (even_positions (drop 8 data))).

(** ** The log of calls *)

(** The decoder that the specification attaches to each command. *)
Definition spec_dispatch (name : string) : Handler :=
  fun data =>
    if String.eqb name "GET_BATTERY_INFO"
    then [DecodedBatteryInfo (parseBatteryInfo data)]
    else if String.eqb name "GET_VERSION"
    then [DecodedVersion (parseVersion data)]
    else if String.eqb name "SERIAL_NUMBER"
    then [HandledSerialNumber data]
    else [].

Definition is_window (ev : Event) : bool :=
  match ev with
  | EvSleep => true
  | _ => false
  end.

(** No [EnableNotifications(nil)] is issued before the first response
    window of the log begins. *)
Fixpoint first_window_subscribed (log : list Event) : bool :=
  match log with
  | [] => true
  | EvSleep :: _ => true
  | EvEnableNotifications None _ :: _ => false
  | _ :: rest => first_window_subscribed rest
  end.

(** No response window of the log comes after an
    [EnableNotifications(nil)] that succeeded: a subscription open at the
    start of the log is still uncancelled in every response window. *)
Fixpoint every_window_subscribed (log : list Event) : bool :=
  match log with
  | [] => true
  | EvEnableNotifications None None :: rest =>
      forallb (fun ev => negb (is_window ev)) rest
  | _ :: rest => every_window_subscribed rest
  end.

(** * Auxiliary notions of the proofs *)

(** Positive finite floats with a bound [E] on the size of the exponent. *)
Definition pos_fin (E : Z) (x : spec_float) : Prop :=
  exists m e, x = S754_finite false m e /\ Zpos m <= 2 ^ 53 /\ - E <= e <= E.

Definition nonneg_fin (E : Z) (x : spec_float) : Prop :=
  x = S754_zero false \/ pos_fin E x.

(** The 16-bit value of the [j]-th pair (from 0) of a cell block, low byte
    first. *)
Definition pair_value (batPack : list byte) (j : nat) : Z :=
  byte_val (byte_at batPack (2 * j)) + 256 * byte_val (byte_at batPack (2 * j + 1)).

(** * Notions of the further properties *)

(** The big-endian value of a byte string, without any bound. *)
Definition be_value (s : list byte) : Z :=
  foldl (fun r b => 256 * r + byte_val b) 0 s.

(** The [n] bytes of a buffer from offset [lo] on. *)
Definition field (data : list byte) (lo n : nat) : list byte :=
  take n (drop lo data).

(** The map that the cell loop builds from a whole cell block. *)
Definition cell_map (batPack : list byte) : gmap Z spec_float :=
  match cell_loop (length batPack) batPack 0 ∅ with
  | Ok pack => pack
  | Err _ => ∅
  end.

(** The record that [parseBatteryInfo] returns when it returns, field by
    field, as a function of the bytes of the backing array (see
    [parseBatteryInfo_decoded]). *)
Definition decoded (data : list byte) : BatteryInfo :=
  let voltage := binaryToInt (rev (field data 12 4)) in
  let current :=
    fdiv (of_int (to_int (binaryToInt (field data 48 4)))) (of_int 1000) in
  let watt :=
    fdiv (Round (fmul (fdiv (fmul (of_int voltage) current) (of_int 10000))
                      (of_int 100)))
         (of_int 100) in
  let equilibrium := to_int (binaryToInt (field data 84 4)) in
  let batteryState := to_int (binaryToInt (field data 88 2)) in
  let soc := to_int (binaryToInt (field data 90 2)) in
  let status :=
    if ((100 <=? soc) || (batteryState =? 4))%bool then "Full Charge"%string
    else if feqb current fzero then "Standby"%string
    else if fltb fzero current then "Charging"%string
    else if fltb current fzero then "Discharging"%string
    else EmptyString in
  mkBatteryInfo
    (binaryToInt (rev (field data 8 4))) voltage
    (cell_map (field data 16 32)) current watt
    (fdiv (of_int (binaryToInt (field data 62 2))) (of_int 100))
    (fdiv (of_int (binaryToInt (field data 64 2))) (of_int 100))
    (to_int (binaryToInt (field data 52 2)))
    (to_int (binaryToInt (field data 54 2)))
    (EncodeToString (field data 68 4))
    (if 8 <=? Z.shiftr (byte_val (byte_at data 68)) 7 then 0 else 1)
    (EncodeToString (field data 76 4))
    (field data 80 4)
    equilibrium batteryState soc
    (to_int (binaryToInt (field data 92 4)))
    (to_int (binaryToInt (field data 96 4)))
    (to_int (binaryToInt (field data 100 4)))
    status
    (if 0 <? equilibrium
     then "Battery cells are being balanced for better performance."
     else "All cells are well-balanced.")
    (if ((0 <? byte_val (byte_at data 80)) || (0 <? byte_val (byte_at data 81)))%bool
     then "Fault alert! There may be a problem with cell."
     else "Battery is in optimal working condition.")
    (if Ascii.eqb (hex_digit (Z.land (byte_val (byte_at data 71)) 15)) "2"
     then "Self-heating is on" else "Self-heating is off").

(** The offsets of a frame that [parseBatteryInfo] reads. *)
Definition used_offset (i : nat) : bool :=
  ((8 <=? i) && (i <? 56) || (62 <=? i) && (i <? 66) ||
   (68 <=? i) && (i <? 72) || (76 <=? i) && (i <? 104))%nat%bool.

(** Zero or a finite number: neither an infinity nor NaN. *)
Definition is_finite (x : spec_float) : bool :=
  match x with
  | S754_zero _ | S754_finite _ _ _ => true
  | _ => false
  end.

(** The 16-bit big-endian number at an offset of a buffer. *)
Definition be16_at (data : list byte) (i : nat) : Z :=
  256 * byte_val (byte_at data i) + byte_val (byte_at data (i + 1)).

(** The characters of a string. *)
Fixpoint chars (s : string) : list ascii :=
  match s with
  | EmptyString => []
  | String c s' => c :: chars s'
  end.


(** [name] is a command of [order] whose hex string decodes to
    [commandBytes]. *)
Definition command_of (order : list (string * string)) (name : string)
    (commandBytes : list byte) : bool :=
  existsb (fun entry =>
             String.eqb (fst entry) name &&
             bool_decide (DecodeString (snd entry) = Some commandBytes))
          order.

(** Every write comes directly after a subscription that succeeded, and
    the handler subscribed there is that of the command whose bytes are
    written.  [subscribed] is the command whose handler the call just
    before the log subscribed with success, if that call did so. *)
Fixpoint writes_subscribed (order : list (string * string))
    (subscribed : option string) (log : list Event) : bool :=
  match log with
  | [] => true
  | EvEnableNotifications (Some name) None :: rest =>
      writes_subscribed order (Some name) rest
  | EvWriteWithoutResponse commandBytes _ :: rest =>
      match subscribed with
      | Some name => command_of order name commandBytes
      | None => false
      end && writes_subscribed order None rest
  | _ :: rest => writes_subscribed order None rest
  end.




(** * Lemmas on the model *)

(** ** Slices and the error monad *)

Lemma bind_Ok_inv {A B} (r : Result A) (f : A -> Result B) (b : B) :
  r ≫= f = Ok b -> exists a, r = Ok a /\ f a = Ok b.
Proof. destruct r as [a|e]; simpl; [eauto | discriminate]. Qed.

Lemma length_backing (data : Slice) : length (backing data) = cap data.
Proof. unfold backing, cap. apply length_app. Qed.

Lemma slice_Ok (data : Slice) (lo hi : nat) :
  (lo <= hi <= cap data)%nat ->
  slice data lo hi =
  Ok (mkSlice (take (hi - lo) (drop lo (backing data))) (drop hi (backing data))).
Proof.
  intros [H1 H2]. unfold slice.
  apply Nat.leb_le in H1, H2. now rewrite H1, H2.
Qed.

(** A slice expression yields its slice or panics, and it panics exactly
    when its bounds are out of order or reach beyond the capacity. *)
Lemma slice_cases (data : Slice) (lo hi : nat) :
  ((lo <= hi <= cap data)%nat /\
   slice data lo hi =
   Ok (mkSlice (take (hi - lo) (drop lo (backing data))) (drop hi (backing data)))) \/
  ((hi < lo \/ cap data < hi)%nat /\ slice data lo hi = Err Panic).
Proof.
  unfold slice. destruct (lo <=? hi)%nat eqn:H1; simpl.
  - destruct (hi <=? cap data)%nat eqn:H2.
    + apply Nat.leb_le in H1, H2. left. auto.
    + apply Nat.leb_gt in H2. right. auto.
  - apply Nat.leb_gt in H1. right. auto.
Qed.

Lemma slice_length (data : list byte) (lo hi : nat) :
  (lo <= hi <= length data)%nat ->
  length (take (hi - lo) (drop lo data)) = (hi - lo)%nat.
Proof. intros H. rewrite length_take, length_drop. lia. Qed.

Lemma index_Ok (data : list byte) (i : nat) :
  (i < length data)%nat -> exists b, data !! i = Some b /\ index data i = Ok b.
Proof.
  intros H. destruct (lookup_lt_is_Some_2 data i H) as [b Hb].
  exists b. unfold index. now rewrite Hb.
Qed.

(** ** Integers *)

Lemma byte_val_range (b : byte) : 0 <= byte_val b < 256.
Proof.
  unfold byte_val. pose proof (Byte.to_N_bounded b) as H.
  lia.
Qed.

Lemma wrap64_small (z : Z) : - 2 ^ 63 <= z < 2 ^ 63 -> wrap64 z = z.
Proof. intros H. unfold wrap64. rewrite Z.mod_small; lia. Qed.

Lemma lor_lt_pow2 (a b n : Z) :
  0 <= n -> 0 <= a < 2 ^ n -> 0 <= b < 2 ^ n -> 0 <= Z.lor a b < 2 ^ n.
Proof.
  intros Hn Ha Hb. split; [apply Z.lor_nonneg; lia|].
  destruct (Z.eq_dec (Z.lor a b) 0) as [->|Hz]; [lia|].
  apply Z.log2_lt_pow2; [pose proof (proj2 (Z.lor_nonneg a b)); lia|].
  rewrite Z.log2_lor by lia.
  apply Z.max_lub_lt.
  - destruct (Z.eq_dec a 0) as [->|Ha0]; [simpl|apply Z.log2_lt_pow2]; try lia.
    destruct (Z.eq_dec n 0) as [->|]; [|lia].
    simpl in Hb. assert (b = 0) by lia. subst. exfalso. apply Hz. reflexivity.
  - destruct (Z.eq_dec b 0) as [->|Hb0]; [simpl|apply Z.log2_lt_pow2]; try lia.
    destruct (Z.eq_dec n 0) as [->|]; [|lia].
    simpl in Ha. assert (a = 0) by lia. subst. exfalso. apply Hz. reflexivity.
Qed.

Lemma shiftl_byte_lt (x k : Z) :
  0 <= x < 256 -> 0 <= k <= 24 -> 0 <= Z.shiftl x k < 2 ^ 32.
Proof.
  intros Hx Hk. rewrite Z.shiftl_mul_pow2 by lia.
  assert (H1 : 2 ^ k <= 2 ^ 24) by (apply Z.pow_le_mono_r; lia).
  assert (H2 : 0 < 2 ^ k) by (apply Z.pow_pos_nonneg; lia).
  change (2 ^ 32) with (256 * 2 ^ 24).
  generalize dependent (2 ^ k). generalize (2 ^ 24). intros. nia.
Qed.

Lemma binaryToInt_snoc (s : list byte) (b : byte) :
  binaryToInt (s ++ [b]) =
  wrap64 (Z.lor (Z.shiftl (binaryToInt s) 8) (byte_val b)).
Proof. unfold binaryToInt. now rewrite foldl_app. Qed.

(** On at most seven bytes the accumulation never reaches the sign bit. *)
Lemma binaryToInt_range (s : list byte) :
  (length s <= 7)%nat -> 0 <= binaryToInt s < 2 ^ (8 * Z.of_nat (length s)).
Proof.
  induction s as [|b s IH] using rev_ind; intros Hlen.
  - simpl. unfold binaryToInt. simpl. lia.
  - rewrite length_app in Hlen |- *. simpl in Hlen |- *.
    assert (Hs : (length s <= 6)%nat) by lia.
    specialize (IH ltac:(lia)).
    rewrite binaryToInt_snoc.
    pose proof (byte_val_range b) as Hb.
    set (n := Z.of_nat (length s)) in *.
    assert (Hn : 0 <= n <= 6) by lia.
    replace (Z.of_nat (length s + 1)) with (n + 1) by lia.
    assert (Hsh : 0 <= Z.shiftl (binaryToInt s) 8 < 2 ^ (8 * (n + 1))).
    { rewrite Z.shiftl_mul_pow2 by lia.
      replace (8 * (n + 1)) with (8 * n + 8) by lia.
      rewrite Z.pow_add_r by lia. nia. }
    assert (Hb' : 0 <= byte_val b < 2 ^ (8 * (n + 1))).
    { split; [lia|]. apply Z.lt_le_trans with (2 ^ 8); [simpl; lia|].
      apply Z.pow_le_mono_r; lia. }
    pose proof (lor_lt_pow2 _ _ (8 * (n + 1)) ltac:(lia) Hsh Hb') as Hl.
    assert (2 ^ (8 * (n + 1)) <= 2 ^ 56) by (apply Z.pow_le_mono_r; lia).
    rewrite wrap64_small; [lia|].
    assert (2 ^ 56 < 2 ^ 63) by (apply Z.pow_lt_mono_r; lia).
    lia.
Qed.

Lemma to_int_binaryToInt (s : list byte) :
  (length s <= 7)%nat -> to_int (binaryToInt s) = binaryToInt s.
Proof.
  intros H. pose proof (binaryToInt_range s H) as Hr.
  unfold to_int. apply wrap64_small.
  assert (2 ^ (8 * Z.of_nat (length s)) <= 2 ^ 56)
    by (apply Z.pow_le_mono_r; lia).
  assert (2 ^ 56 < 2 ^ 63) by (apply Z.pow_lt_mono_r; lia).
  lia.
Qed.

(** [binaryToIntBigEndian] on four bytes is their little-endian value. *)
Lemma binaryToIntBigEndian_4 (b0 b1 b2 b3 : byte) :
  binaryToIntBigEndian [b0; b1; b2; b3] =
  Ok (Z.lor (Z.lor (Z.lor (byte_val b0) (Z.shiftl (byte_val b1) 8))
                   (Z.shiftl (byte_val b2) 16))
            (Z.shiftl (byte_val b3) 24)).
Proof.
  unfold binaryToIntBigEndian. simpl. f_equal.
  pose proof (byte_val_range b0). pose proof (byte_val_range b1).
  pose proof (byte_val_range b2). pose proof (byte_val_range b3).
  unfold to_int. apply wrap64_small.
  assert (H32 : 0 <= Z.lor (Z.lor (Z.lor (byte_val b0) (Z.shiftl (byte_val b1) 8))
                   (Z.shiftl (byte_val b2) 16)) (Z.shiftl (byte_val b3) 24) < 2 ^ 32).
  { repeat apply lor_lt_pow2; try lia; try (apply shiftl_byte_lt; lia). }
  assert (2 ^ 32 < 2 ^ 63) by (apply Z.pow_lt_mono_r; lia).
  lia.
Qed.

Lemma binaryToIntBigEndian_range (s : list byte) :
  length s = 4%nat ->
  exists v, binaryToIntBigEndian s = Ok v /\ 0 <= v < 2 ^ 32.
Proof.
  intros H. destruct s as [|b0 [|b1 [|b2 [|b3 [|? ?]]]]]; try discriminate.
  rewrite binaryToIntBigEndian_4. eexists; split; [reflexivity|].
  pose proof (byte_val_range b0). pose proof (byte_val_range b1).
  pose proof (byte_val_range b2). pose proof (byte_val_range b3).
  repeat apply lor_lt_pow2; try lia; try (apply shiftl_byte_lt; lia).
Qed.

(** ** float64: positive finite results

    The decoder only ever divides and multiplies non-negative integers of
    moderate size.  For such operands the rounding of [SpecFloat] neither
    underflows to zero nor overflows to infinity; the lemmas below track
    just enough (sign, a bound on the mantissa and on the exponent) to
    show it. *)

Lemma digits2_pos_bounds (p : positive) :
  2 ^ (Zpos (digits2_pos p) - 1) <= Zpos p < 2 ^ Zpos (digits2_pos p).
Proof.
  induction p as [p IH|p IH|]; simpl digits2_pos.
  - rewrite Pos2Z.inj_succ, (Pos2Z.inj_xI p).
    replace (Z.succ (Zpos (digits2_pos p)) - 1)
      with (Z.succ (Zpos (digits2_pos p) - 1)) by lia.
    rewrite !Z.pow_succ_r by lia. lia.
  - rewrite Pos2Z.inj_succ, (Pos2Z.inj_xO p).
    replace (Z.succ (Zpos (digits2_pos p)) - 1)
      with (Z.succ (Zpos (digits2_pos p) - 1)) by lia.
    rewrite !Z.pow_succ_r by lia. lia.
  - split; [apply Z.leb_le | apply Z.ltb_lt]; reflexivity.
Qed.

Lemma Zdigits2_bounds (m : Z) :
  0 < m -> 1 <= Zdigits2 m /\ 2 ^ (Zdigits2 m - 1) <= m < 2 ^ Zdigits2 m.
Proof.
  destruct m as [|p|p]; try lia. intros _. simpl Zdigits2.
  split; [lia | apply digits2_pos_bounds].
Qed.

Lemma Zdigits2_le (m k : Z) : 0 < m < 2 ^ k -> 0 <= k -> Zdigits2 m <= k.
Proof.
  intros [Hm Hk] Hk0. destruct (Zdigits2_bounds m Hm) as [Hd [Hlo _]].
  assert (H : Zdigits2 m - 1 < k); [|lia].
  apply (Z.pow_lt_mono_r_iff 2); lia.
Qed.

Lemma shr_1_m (mrs : shr_record) :
  0 <= shr_m mrs -> shr_m (shr_1 mrs) = shr_m mrs / 2.
Proof.
  destruct mrs as [m r s]. simpl. intros Hm.
  destruct m as [|[q|q|]|q]; simpl shr_m.
  - reflexivity.
  - apply Z.div_unique with 1; lia.
  - apply Z.div_unique with 0; lia.
  - reflexivity.
  - lia.
Qed.

Lemma iter_pos_shr_1_m (p : positive) (mrs : shr_record) :
  0 <= shr_m mrs ->
  shr_m (SpecFloat.iter_pos shr_1 p mrs) = shr_m mrs / 2 ^ Zpos p.
Proof.
  revert mrs. induction p as [p IH|p IH|]; intros mrs Hm; simpl SpecFloat.iter_pos.
  - assert (H1 : 0 <= shr_m (shr_1 mrs))
      by (rewrite shr_1_m by lia; apply Z.div_pos; lia).
    assert (H2 : 0 <= shr_m (SpecFloat.iter_pos shr_1 p (shr_1 mrs)))
      by (rewrite IH by lia; apply Z.div_pos; [lia|apply Z.pow_pos_nonneg; lia]).
    rewrite IH, IH, shr_1_m by lia.
    assert (Hp : 0 < 2 ^ Zpos p) by (apply Z.pow_pos_nonneg; lia).
    rewrite !Z.div_div by lia. f_equal.
    rewrite (Pos2Z.inj_xI p).
    replace (2 * Zpos p + 1) with (1 + Zpos p + Zpos p) by lia.
    rewrite !Z.pow_add_r by lia. lia.
  - assert (H2 : 0 <= shr_m (SpecFloat.iter_pos shr_1 p mrs))
      by (rewrite IH by lia; apply Z.div_pos; [lia|apply Z.pow_pos_nonneg; lia]).
    rewrite IH, IH by lia.
    assert (Hp : 0 < 2 ^ Zpos p) by (apply Z.pow_pos_nonneg; lia).
    rewrite !Z.div_div by lia. f_equal.
    rewrite (Pos2Z.inj_xO p).
    replace (2 * Zpos p) with (Zpos p + Zpos p) by lia.
    rewrite !Z.pow_add_r by lia. lia.
  - now apply shr_1_m.
Qed.

(** One rounding shift: the mantissa is divided by [2 ^ n] and the
    exponent raised by [n], for the number [n] of excess digits. *)
Lemma shr_fexp_spec (m e : Z) (l : location) (mrs : shr_record) (e' : Z) :
  0 <= m ->
  shr_fexp prec emax m e l = (mrs, e') ->
  let n := Z.max 0 (fexp prec emax (Zdigits2 m + e) - e) in
  shr_m mrs = m / 2 ^ n /\ e' = e + n.
Proof.
  intros Hm. unfold shr_fexp, shr.
  assert (Hl : shr_m (shr_record_of_loc m l) = m) by (destruct l as [|[]]; reflexivity).
  destruct (fexp prec emax (Zdigits2 m + e) - e) as [|p|p] eqn:E;
    intros [= <- <-]; simpl Z.max.
  - rewrite Hl, Z.div_1_r. lia.
  - rewrite Z.max_r by lia. rewrite iter_pos_shr_1_m, Hl by lia. lia.
  - rewrite Z.max_l by lia. rewrite Hl, Z.div_1_r. lia.
Qed.

Lemma round_nearest_even_bounds (m : Z) (l : location) :
  m <= round_nearest_even m l <= m + 1.
Proof.
  unfold round_nearest_even. destruct l as [|[]]; try lia.
  destruct (Z.even m); lia.
Qed.

Lemma fexp_eq (x : Z) : fexp prec emax x = Z.max (x - 53) (-1074).
Proof. reflexivity. Qed.

Lemma div_pow2_bounds (m d n : Z) :
  0 <= n < d -> 2 ^ (d - 1) <= m < 2 ^ d ->
  2 ^ (d - 1 - n) <= m / 2 ^ n < 2 ^ (d - n).
Proof.
  intros Hn [Hlo Hhi].
  assert (Hp : 0 < 2 ^ n) by (apply Z.pow_pos_nonneg; lia).
  split.
  - apply Z.div_le_lower_bound; [lia|].
    rewrite <- Z.pow_add_r by lia. now replace (n + (d - 1 - n)) with (d - 1) by lia.
  - apply Z.div_lt_upper_bound; [lia|].
    rewrite <- Z.pow_add_r by lia. now replace (n + (d - n)) with d by lia.
Qed.

Lemma binary_round_aux_pos (sx : bool) (mx ex : Z) (lx : location) :
  0 < mx -> -1074 <= ex -> ex + Z.max 0 (Zdigits2 mx - 52) <= 971 ->
  exists m e,
    binary_round_aux prec emax sx mx ex lx = S754_finite sx m e /\
    ex <= e <= ex + Z.max 0 (Zdigits2 mx - 52) /\ Zpos m <= 2 ^ 53.
Proof.
  intros Hmx Hex Hhi. unfold binary_round_aux.
  destruct (shr_fexp prec emax mx ex lx) as [mrs1 e1] eqn:E1.
  apply shr_fexp_spec in E1; [|lia]. cbv zeta in E1. destruct E1 as [Hm1 He1].
  destruct (Zdigits2_bounds mx Hmx) as [Hd [Hlo Hup]].
  set (d := Zdigits2 mx) in *.
  rewrite fexp_eq in Hm1, He1.
  set (n1 := Z.max 0 (Z.max (d + ex - 53) (-1074) - ex)) in *.
  assert (Hn1 : n1 = Z.max 0 (d - 53)) by lia.
  assert (Hn1d : 0 <= n1 < d) by lia.
  pose proof (div_pow2_bounds mx d n1 Hn1d (conj Hlo Hup)) as Hb1.
  rewrite <- Hm1 in Hb1.
  set (m1 := shr_m mrs1) in *.
  pose proof (round_nearest_even_bounds m1 (loc_of_shr_record mrs1)) as Hr.
  set (m2 := round_nearest_even m1 (loc_of_shr_record mrs1)) in *.
  assert (H1 : 1 <= m1).
  { apply Z.le_trans with (2 ^ (d - 1 - n1)); [|lia].
    assert (0 < 2 ^ (d - 1 - n1)) by (apply Z.pow_pos_nonneg; lia). lia. }
  assert (H53 : 2 ^ (d - n1) <= 2 ^ 53) by (apply Z.pow_le_mono_r; lia).
  destruct (shr_fexp prec emax m2 e1 loc_Exact) as [mrs3 e3] eqn:E3.
  apply shr_fexp_spec in E3; [|lia]. cbv zeta in E3. destruct E3 as [Hm3 He3].
  destruct (Zdigits2_bounds m2 ltac:(lia)) as [Hd2 [Hlo2 Hup2]].
  set (d2 := Zdigits2 m2) in *.
  rewrite fexp_eq in Hm3, He3.
  set (n2 := Z.max 0 (Z.max (d2 + e1 - 53) (-1074) - e1)) in *.
  assert (Hd2le : d2 <= d - n1 + 1).
  { apply Zdigits2_le; [|lia]. split; [lia|].
    replace (d - n1 + 1) with (Z.succ (d - n1)) by lia.
    rewrite Z.pow_succ_r by lia.
    assert (0 < 2 ^ (d - n1)) by (apply Z.pow_pos_nonneg; lia). lia. }
  assert (Hn2 : n2 = Z.max 0 (d2 - 53)) by lia.
  assert (Hn2d : 0 <= n2 < d2) by lia.
  pose proof (div_pow2_bounds m2 d2 n2 Hn2d (conj Hlo2 Hup2)) as Hb3.
  rewrite <- Hm3 in Hb3.
  assert (H3 : 1 <= shr_m mrs3).
  { apply Z.le_trans with (2 ^ (d2 - 1 - n2)); [|lia].
    assert (0 < 2 ^ (d2 - 1 - n2)) by (apply Z.pow_pos_nonneg; lia). lia. }
  assert (H3u : shr_m mrs3 <= 2 ^ 53).
  { assert (2 ^ (d2 - n2) <= 2 ^ 53) by (apply Z.pow_le_mono_r; lia). lia. }
  assert (Hd52 : d <= 52 -> n2 = 0).
  { intros Hle. assert (n1 = 0) by lia.
    assert (d2 <= 53); [|lia].
    apply Zdigits2_le; [|lia]. split; [lia|].
    assert (2 ^ d <= 2 ^ 52) by (apply Z.pow_le_mono_r; lia).
    assert (2 ^ 52 < 2 ^ 53) by (apply Z.pow_lt_mono_r; lia).
    replace (d - n1) with d in * by lia. lia. }
  assert (He3' : ex <= e3 <= ex + Z.max 0 (d - 52)).
  { destruct (Z_le_gt_dec d 52) as [Hle|Hgt]; [specialize (Hd52 Hle)|]; lia. }
  destruct (shr_m mrs3) as [|m|m] eqn:Em3; try lia.
  exists m, e3. split; [|split; [exact He3'|exact H3u]].
  assert (Hle : (e3 <=? emax - prec) = true) by (apply Z.leb_le; unfold emax, prec; lia).
  now rewrite Hle.
Qed.

Lemma pos_fin_mono (E E' : Z) (x : spec_float) :
  E <= E' -> pos_fin E x -> pos_fin E' x.
Proof. intros HE (m & e & -> & Hm & He). exists m, e. repeat split; lia. Qed.

Lemma nonneg_fin_mono (E E' : Z) (x : spec_float) :
  E <= E' -> nonneg_fin E x -> nonneg_fin E' x.
Proof. intros HE [->|H]; [now left | right; eauto using pos_fin_mono]. Qed.

Lemma Pos_iter_xO (p n : positive) :
  Zpos (Pos.iter xO p n) = Zpos p * 2 ^ Zpos n.
Proof.
  induction n as [|n IH] using Pos.peano_ind.
  - simpl. lia.
  - rewrite Pos.iter_succ, Pos2Z.inj_succ, Z.pow_succ_r by lia.
    change (Zpos (Pos.iter xO p n)~0) with (2 * Zpos (Pos.iter xO p n)).
    rewrite IH. lia.
Qed.

Lemma of_int_pos (c : Z) : 0 < c < 2 ^ 63 -> pos_fin 53 (of_int c).
Proof.
  intros [Hc Hc63]. destruct c as [|p|p]; try lia.
  unfold of_int, binary_normalize, binary_round.
  destruct (Zdigits2_bounds (Zpos p) Hc) as [Hd [Hlo Hup]].
  assert (Hd63 : Zdigits2 (Zpos p) <= 63) by (apply Zdigits2_le; lia).
  simpl Zdigits2 in *. set (d := Zpos (digits2_pos p)) in *.
  rewrite fexp_eq. unfold shl_align.
  replace (Z.max (d + 0 - 53) (-1074) - 0) with (d - 53) by lia.
  destruct (d - 53) as [|k|k] eqn:Ek.
  - destruct (binary_round_aux_pos false (Zpos p) 0 loc_Exact) as (m & e & -> & He & Hm);
      try (simpl Zdigits2; fold d; lia).
    simpl Zdigits2 in He. fold d in He. exists m, e. repeat split; lia.
  - destruct (binary_round_aux_pos false (Zpos p) 0 loc_Exact) as (m & e & -> & He & Hm);
      try (simpl Zdigits2; fold d; lia).
    simpl Zdigits2 in He. fold d in He. exists m, e. repeat split; lia.
  - assert (Hz : Zpos (Pos.iter xO p k) < 2 ^ 53).
    { rewrite Pos_iter_xO.
      replace 53 with (d + Zpos k) by lia. rewrite Z.pow_add_r by lia.
      assert (0 < 2 ^ Zpos k) by (apply Z.pow_pos_nonneg; lia). nia. }
    assert (Hdz : Zdigits2 (Zpos (Pos.iter xO p k)) <= 53)
      by (apply Zdigits2_le; lia).
    replace (Z.max (d + 0 - 53) (-1074)) with (d - 53) by lia.
    destruct (binary_round_aux_pos false (Zpos (Pos.iter xO p k)) (d - 53) loc_Exact)
      as (m & e & -> & He & Hm); try lia.
    exists m, e. repeat split; lia.
Qed.

Lemma fmul_pos (E1 E2 : Z) (x y : spec_float) :
  pos_fin E1 x -> pos_fin E2 y -> 0 <= E1 -> 0 <= E2 -> E1 + E2 <= 900 ->
  pos_fin (E1 + E2 + 55) (fmul x y).
Proof.
  intros (mx & ex & -> & Hmx & Hex) (my & ey & -> & Hmy & Hey) H1 H2 HE.
  unfold fmul, SFmul. simpl xorb.
  assert (Hprod : 0 < Zpos (mx * my) < 2 ^ 107).
  { rewrite Pos2Z.inj_mul. split; [lia|].
    change (2 ^ 107) with (2 ^ 53 * 2 ^ 53 * 2). 
    generalize dependent (2 ^ 53). intros. nia. }
  assert (Hd : Zdigits2 (Zpos (mx * my)) <= 107) by (apply Zdigits2_le; lia).
  destruct (binary_round_aux_pos false (Zpos (mx * my)) (ex + ey) loc_Exact)
    as (m & e & -> & He & Hm); try lia.
  exists m, e. repeat split; lia.
Qed.

Lemma fdiv_pos (E1 E2 : Z) (x y : spec_float) :
  pos_fin E1 x -> pos_fin E2 y -> 0 <= E1 -> 0 <= E2 -> E1 + E2 <= 900 ->
  pos_fin (E1 + E2 + 107) (fdiv x y).
Proof.
  intros (mx & ex & -> & Hmx & Hex) (my & ey & -> & Hmy & Hey) H1 H2 HE.
  unfold fdiv, SFdiv, SFdiv_core_binary. simpl xorb.
  destruct (Zdigits2_bounds (Zpos mx) ltac:(lia)) as [Hd1 [Hlo1 Hup1]].
  destruct (Zdigits2_bounds (Zpos my) ltac:(lia)) as [Hd2 [Hlo2 Hup2]].
  assert (Hd1' : Zdigits2 (Zpos mx) <= 54)
    by (apply Zdigits2_le; [|lia]; change (2 ^ 54) with (2 ^ 53 * 2); lia).
  assert (Hd2' : Zdigits2 (Zpos my) <= 54)
    by (apply Zdigits2_le; [|lia]; change (2 ^ 54) with (2 ^ 53 * 2); lia).
  set (d1 := Zdigits2 (Zpos mx)) in *. set (d2 := Zdigits2 (Zpos my)) in *.
  rewrite fexp_eq.
  set (e' := Z.min (Z.max (d1 + ex - (d2 + ey) - 53) (-1074)) (ex - ey)).
  set (s := ex - ey - e').
  assert (Hs : s = Z.max 0 (53 + d2 - d1)) by lia.
  set (m' := match s with Z0 => Zpos mx | Zpos _ => Z.shiftl (Zpos mx) s | Zneg _ => 0 end).
  assert (Hm' : m' = Zpos mx * 2 ^ s).
  { unfold m'. destruct s as [|k|k] eqn:Es; try lia.
    now rewrite Z.shiftl_mul_pow2 by lia. }
  clearbody m'.
  assert (Hps : 0 < 2 ^ s) by (apply Z.pow_pos_nonneg; lia).
  assert (Hm'lo : 2 ^ d2 <= m').
  { rewrite Hm'. apply Z.le_trans with (2 ^ (d1 - 1) * 2 ^ s); [|nia].
    rewrite <- Z.pow_add_r by lia. apply Z.pow_le_mono_r; lia. }
  assert (Hm'hi : m' < 2 ^ (d1 + s)).
  { rewrite Hm', Z.pow_add_r by lia. nia. }
  pose proof (Z_div_mod m' (Zpos my) ltac:(lia)) as Hdm.
  destruct (Z.div_eucl m' (Zpos my)) as [q r]. destruct Hdm as [Hq Hr].
  assert (Hq1 : 0 < q) by nia.
  assert (Hq2 : q < 2 ^ (d1 + s)) by nia.
  assert (Hdq : Zdigits2 q <= d1 + s) by (apply Zdigits2_le; lia).
  destruct (binary_round_aux_pos false q e' (new_location (Zpos my) r))
    as (m & e & -> & He & Hm); try lia.
  exists m, e. repeat split; lia.
Qed.

Lemma Round_nonneg (E : Z) (x : spec_float) :
  53 <= E -> nonneg_fin E x -> nonneg_fin E (Round x).
Proof.
  intros HE [->|(m & e & -> & Hm & He)]; [now left|].
  unfold Round. destruct (0 <=? e) eqn:Ee.
  - right. exists m, e. repeat split; lia.
  - apply Z.leb_gt in Ee.
    set (h := 2 ^ (- e - 1)).
    assert (Hh : 0 < h) by (apply Z.pow_pos_nonneg; lia).
    assert (H2h : 2 ^ (- e) = 2 * h).
    { unfold h. replace (- e) with (Z.succ (- e - 1)) at 1 by lia.
      now rewrite Z.pow_succ_r by lia. }
    rewrite H2h.
    assert (Hq0 : 0 <= (Zpos m + h) / (2 * h)) by (apply Z.div_pos; lia).
    assert (Hq1 : (Zpos m + h) / (2 * h) <= Zpos m)
      by (apply Z.div_le_upper_bound; nia).
    destruct ((Zpos m + h) / (2 * h) =? 0) eqn:Eq; [now left|].
    apply Z.eqb_neq in Eq. right.
    apply pos_fin_mono with 53; [lia|]. apply of_int_pos.
    assert (2 ^ 53 < 2 ^ 63) by (apply Z.pow_lt_mono_r; lia). lia.
Qed.

Lemma fdiv_nonneg (E1 E2 : Z) (x y : spec_float) :
  nonneg_fin E1 x -> pos_fin E2 y -> 0 <= E1 -> 0 <= E2 -> E1 + E2 <= 900 ->
  nonneg_fin (E1 + E2 + 107) (fdiv x y).
Proof.
  intros [->|Hx] Hy H1 H2 HE.
  - left. destruct Hy as (m & e & -> & _). reflexivity.
  - right. now apply fdiv_pos.
Qed.

Lemma fmul_nonneg (E1 E2 : Z) (x y : spec_float) :
  nonneg_fin E1 x -> nonneg_fin E2 y -> 0 <= E1 -> 0 <= E2 -> E1 + E2 <= 900 ->
  nonneg_fin (E1 + E2 + 55) (fmul x y).
Proof.
  intros [->|Hx] [->|Hy] H1 H2 HE.
  - now left.
  - left. destruct Hy as (m & e & -> & _). reflexivity.
  - left. destruct Hx as (m & e & -> & _). reflexivity.
  - right. now apply fmul_pos.
Qed.

Lemma of_int_nonneg (c : Z) : 0 <= c < 2 ^ 63 -> nonneg_fin 53 (of_int c).
Proof.
  intros Hc. destruct (Z.eq_dec c 0) as [->|Hne]; [now left|].
  right. apply of_int_pos. lia.
Qed.

Lemma nonneg_fin_fleb (E : Z) (x : spec_float) :
  nonneg_fin E x -> fleb fzero x = true /\ fltb x fzero = false.
Proof. intros [->|(m & e & -> & _)]; split; reflexivity. Qed.

Lemma pos_fin_sign (E : Z) (x : spec_float) :
  pos_fin E x ->
  fltb fzero x = true /\ feqb x fzero = false /\ fltb x fzero = false.
Proof. intros (m & e & -> & _). repeat split; reflexivity. Qed.

(** ** float64: the scaled fields of the decoder *)

Lemma nonneg_fin_is_finite (E : Z) (x : spec_float) :
  nonneg_fin E x -> is_finite x = true.
Proof. intros [->|(m & e & -> & _)]; reflexivity. Qed.

Lemma Current_nonneg (s : list byte) :
  (length s <= 7)%nat ->
  nonneg_fin 213 (fdiv (of_int (to_int (binaryToInt s))) (of_int 1000)).
Proof.
  intros Hs. rewrite to_int_binaryToInt by exact Hs.
  pose proof (binaryToInt_range s Hs) as Hr.
  assert (H56 : 2 ^ (8 * Z.of_nat (length s)) <= 2 ^ 56)
    by (apply Z.pow_le_mono_r; lia).
  assert (H63 : 2 ^ 56 < 2 ^ 63) by (apply Z.pow_lt_mono_r; lia).
  apply (fdiv_nonneg 53 53); try lia.
  - apply of_int_nonneg. lia.
  - apply of_int_pos. split; reflexivity.
Qed.

Lemma Ah_nonneg (s : list byte) :
  (length s <= 7)%nat ->
  nonneg_fin 213 (fdiv (of_int (binaryToInt s)) (of_int 100)).
Proof.
  intros Hs. pose proof (binaryToInt_range s Hs) as Hr.
  assert (H56 : 2 ^ (8 * Z.of_nat (length s)) <= 2 ^ 56)
    by (apply Z.pow_le_mono_r; lia).
  assert (H63 : 2 ^ 56 < 2 ^ 63) by reflexivity.
  apply (fdiv_nonneg 53 53); try lia.
  - apply of_int_nonneg. lia.
  - apply of_int_pos. split; reflexivity.
Qed.

Lemma scaled_product_nonneg (voltage : Z) (current : spec_float) :
  0 <= voltage < 2 ^ 32 -> nonneg_fin 213 current ->
  nonneg_fin 589
    (fmul (fdiv (fmul (of_int voltage) current) (of_int 10000)) (of_int 100)).
Proof.
  intros Hv Hc.
  assert (H63 : 2 ^ 32 < 2 ^ 63) by (apply Z.pow_lt_mono_r; lia).
  assert (HV : nonneg_fin 53 (of_int voltage)) by (apply of_int_nonneg; lia).
  assert (H1 : nonneg_fin 321 (fmul (of_int voltage) current))
    by (apply (fmul_nonneg 53 213); try assumption; lia).
  assert (H2 : nonneg_fin 481 (fdiv (fmul (of_int voltage) current) (of_int 10000))).
  { apply (fdiv_nonneg 321 53); try assumption; try lia.
    apply of_int_pos. split; reflexivity. }
  apply (fmul_nonneg 481 53); try assumption; try lia.
  right. apply of_int_pos. split; reflexivity.
Qed.

Lemma Watt_nonneg (voltage : Z) (current : spec_float) :
  0 <= voltage < 2 ^ 32 -> nonneg_fin 213 current ->
  nonneg_fin 749
    (fdiv (Round (fmul (fdiv (fmul (of_int voltage) current) (of_int 10000))
                       (of_int 100))) (of_int 100)).
Proof.
  intros Hv Hc.
  pose proof (scaled_product_nonneg voltage current Hv Hc) as H3.
  apply (Round_nonneg 589) in H3; [|lia].
  apply (fdiv_nonneg 589 53); try assumption; try lia.
  apply of_int_pos. split; reflexivity.
Qed.

(** ** float64: exact results *)

(** A mantissa of at most 53 digits is not rounded. *)
Lemma binary_round_aux_exact (m : positive) (e : Z) :
  Zdigits2 (Zpos m) <= 53 -> -1074 <= e <= 971 ->
  binary_round_aux prec emax false (Zpos m) e loc_Exact = S754_finite false m e.
Proof.
  intros Hd He. unfold binary_round_aux.
  assert (Hs : shr_fexp prec emax (Zpos m) e loc_Exact =
               (shr_record_of_loc (Zpos m) loc_Exact, e)).
  { unfold shr_fexp, shr. rewrite fexp_eq.
    destruct (Z.max (Zdigits2 (Zpos m) + e - 53) (-1074) - e) as [|p|p] eqn:E;
      [reflexivity|lia|reflexivity]. }
  rewrite Hs. cbn [shr_record_of_loc shr_m loc_of_shr_record round_nearest_even].
  rewrite Hs. cbn [shr_record_of_loc shr_m].
  assert (Hle : (e <=? emax - prec) = true) by (apply Z.leb_le; unfold emax, prec; lia).
  now rewrite Hle.
Qed.

(** The conversion of an integer below [2 ^ 53] is exact. *)
Lemma of_int_exact (q : Z) :
  0 < q < 2 ^ 53 ->
  exists m e, of_int q = S754_finite false m e /\ -53 <= e <= 0 /\
              Zpos m = q * 2 ^ (- e).
Proof.
  intros [Hq Hq53]. destruct q as [|p|p]; try lia.
  unfold of_int, binary_normalize, binary_round.
  destruct (Zdigits2_bounds (Zpos p) Hq) as [Hd [Hlo Hup]].
  assert (Hd53 : Zdigits2 (Zpos p) <= 53) by (apply Zdigits2_le; lia).
  simpl Zdigits2 in *. set (d := Zpos (digits2_pos p)) in *.
  rewrite fexp_eq. unfold shl_align.
  replace (Z.max (d + 0 - 53) (-1074) - 0) with (d - 53) by lia.
  destruct (d - 53) as [|k|k] eqn:Ek; try lia.
  - rewrite binary_round_aux_exact by (simpl Zdigits2; fold d; lia).
    exists p, 0. split; [reflexivity|]. split; [lia|]. simpl. lia.
  - assert (Hz : Zpos (Pos.iter xO p k) < 2 ^ 53).
    { rewrite Pos_iter_xO.
      replace 53 with (d + Zpos k) by lia. rewrite Z.pow_add_r by lia.
      assert (0 < 2 ^ Zpos k) by (apply Z.pow_pos_nonneg; lia). nia. }
    replace (Z.max (d + 0 - 53) (-1074)) with (d - 53) by lia.
    rewrite binary_round_aux_exact; [|apply Zdigits2_le; lia|lia].
    exists (Pos.iter xO p k), (d - 53). split; [reflexivity|]. split; [lia|].
    rewrite Pos_iter_xO. f_equal. f_equal. lia.
Qed.

Lemma exact_of_int (q : Z) :
  0 <= q < 2 ^ 53 -> Qeq (exact (of_int q)) (inject_Z q).
Proof.
  intros Hq. destruct (Z.eq_dec q 0) as [->|Hne]; [reflexivity|].
  destruct (of_int_exact q ltac:(lia)) as (m & e & -> & He & Hm).
  unfold exact. destruct (0 <=? e) eqn:Ee.
  - apply Z.leb_le in Ee. assert (e = 0) as -> by lia.
    rewrite Hm. change (2 ^ (- 0)) with 1. change (2 ^ 0) with 1.
    now rewrite !Z.mul_1_r.
  - unfold Qeq. cbn [Qnum Qden inject_Z].
    assert (Hp : 0 < 2 ^ (- e)) by (apply Z.pow_pos_nonneg; lia).
    rewrite Z2Pos.id by exact Hp. lia.
Qed.

(** ** The nearest integer *)

Lemma nearest_int_frac (n : Z) (d : positive) :
  0 <= n -> nearest_int (Qmake n d) = (2 * n + Zpos d) / (2 * Zpos d).
Proof.
  intros Hn. unfold nearest_int.
  assert (Hle : Qle_bool (inject_Z 0) (Qmake n d) = true).
  { unfold Qle_bool. cbn [Qnum Qden inject_Z]. apply Z.leb_le. lia. }
  rewrite Hle. unfold Qfloor, Qplus. cbn [Qnum Qden].
  f_equal; lia.
Qed.

Lemma nearest_int_Z (k : Z) : 0 <= k -> nearest_int (inject_Z k) = k.
Proof.
  intros Hk. unfold inject_Z. rewrite nearest_int_frac by exact Hk.
  symmetry. apply Z.div_unique with 1; lia.
Qed.

(** [math.Round] returns a float that stands for the integer nearest to
    its argument, halves away from zero. *)
Lemma Round_exact (E : Z) (x : spec_float) :
  nonneg_fin E x -> Qeq (exact (Round x)) (inject_Z (nearest_int (exact x))).
Proof.
  intros [->|(m & e & -> & Hm & He)]; [reflexivity|].
  unfold Round. destruct (0 <=? e) eqn:Ee.
  - unfold exact. rewrite Ee. rewrite nearest_int_Z; [reflexivity|].
    apply Z.leb_le in Ee. assert (0 < 2 ^ e) by (apply Z.pow_pos_nonneg; lia). lia.
  - apply Z.leb_gt in Ee.
    set (h := 2 ^ (- e - 1)).
    assert (Hh : 0 < h) by (apply Z.pow_pos_nonneg; lia).
    assert (H2h : 2 ^ (- e) = 2 * h).
    { unfold h. replace (- e) with (Z.succ (- e - 1)) at 1 by lia.
      now rewrite Z.pow_succ_r by lia. }
    assert (Hn : nearest_int (exact (S754_finite false m e)) =
                 (Zpos m + h) / (2 * h)).
    { unfold exact. assert (E0 : (0 <=? e) = false) by (apply Z.leb_gt; lia).
      rewrite E0. rewrite nearest_int_frac by lia.
      rewrite Z2Pos.id by lia. rewrite H2h.
      replace (2 * Zpos m + 2 * h) with (2 * (Zpos m + h)) by lia.
      apply Z.div_mul_cancel_l; lia. }
    rewrite Hn, H2h.
    assert (Hq0 : 0 <= (Zpos m + h) / (2 * h)) by (apply Z.div_pos; lia).
    assert (Hq1 : (Zpos m + h) / (2 * h) < 2 ^ 53).
    { apply Z.div_lt_upper_bound; [lia|].
      assert (0 < 2 ^ 53) by reflexivity. nia. }
    destruct ((Zpos m + h) / (2 * h) =? 0) eqn:Eq.
    + apply Z.eqb_eq in Eq. rewrite Eq. reflexivity.
    + apply Z.eqb_neq in Eq. apply exact_of_int. lia.
Qed.

(** ** The cell loop *)

Lemma bind_Ok {A B} (a : A) (f : A -> Result B) : Ok a ≫= f = f a.
Proof. reflexivity. Qed.

Lemma bind_slice_Ok {B} (data : Slice) (lo hi : nat) (f : Slice -> Result B) :
  (lo <= hi <= cap data)%nat ->
  slice data lo hi ≫= f =
  f (mkSlice (take (hi - lo) (drop lo (backing data))) (drop hi (backing data))).
Proof. intros H. now rewrite slice_Ok. Qed.

Lemma lor_shiftl_8 (x y : Z) :
  0 <= x -> 0 <= y < 256 -> Z.lor (Z.shiftl x 8) y = 256 * x + y.
Proof.
  intros Hx Hy.
  assert (Hland : Z.land (Z.shiftl x 8) y = 0).
  { apply Z.bits_inj'. intros n Hn. rewrite Z.land_spec, Z.bits_0.
    destruct (Z.lt_ge_cases n 8) as [Hlt|Hge].
    - now rewrite Z.shiftl_spec_low.
    - rewrite (Z.bits_above_log2 y n); [apply andb_false_r|lia|].
      destruct (Z.eq_dec y 0) as [->|Hy0]; [simpl; lia|].
      apply Z.lt_le_trans with 8; [|lia]. apply Z.log2_lt_pow2; lia. }
  rewrite <- Z.lxor_lor, <- Z.add_nocarry_lxor by assumption.
  rewrite Z.shiftl_mul_pow2 by lia. lia.
Qed.

Lemma binaryToInt_pair (hi lo : byte) :
  to_int (binaryToInt [hi; lo]) = byte_val lo + 256 * byte_val hi.
Proof.
  pose proof (byte_val_range hi) as Hh. pose proof (byte_val_range lo) as Hl.
  rewrite to_int_binaryToInt by (simpl; lia).
  change [hi; lo] with ([hi] ++ [lo]). rewrite binaryToInt_snoc.
  change [hi] with ([] ++ [hi]). rewrite binaryToInt_snoc.
  change (binaryToInt []) with 0. rewrite Z.shiftl_0_l, Z.lor_0_l.
  rewrite (wrap64_small (byte_val hi)) by lia.
  rewrite lor_shiftl_8 by lia. rewrite wrap64_small; lia.
Qed.

Lemma byte_at_lookup (data : list byte) (i : nat) (b : byte) :
  data !! i = Some b -> byte_at data i = b.
Proof. unfold byte_at. now intros ->. Qed.

Lemma cell_loop_S (fuel : nat) (batPack : list byte) (i : nat)
    (pack : gmap Z spec_float) :
  cell_loop (S fuel) batPack i pack =
  if (i <? length batPack)%nat then
    hi ← index batPack (i + 1);
    lo ← index batPack i;
    let cellVoltage := to_int (binaryToInt [hi; lo]) in
    if cellVoltage =? 0 then cell_loop fuel batPack (i + 2) pack
    else
      let cell := Z.of_nat i / 2 + 1 in
      cell_loop fuel batPack (i + 2)
        (<[ cell := fdiv (of_int cellVoltage) (of_int 1000) ]> pack)
  else Ok pack.
Proof. reflexivity. Qed.

(** The cell loop, started at pair [j] of a block of [n] pairs: the
    resulting map holds the non-zero pairs from [j] on and is otherwise
    the map it started from. *)
Lemma cell_loop_spec (batPack : list byte) (n : nat) :
  length batPack = (2 * n)%nat ->
  forall (fuel j : nat) (pack : gmap Z spec_float),
    (j <= n)%nat -> (n - j <= fuel)%nat ->
    exists pack',
      cell_loop fuel batPack (2 * j) pack = Ok pack' /\
      forall k : Z,
        pack' !! k =
        if decide (Z.of_nat j < k <= Z.of_nat n /\
                   pair_value batPack (Z.to_nat (k - 1)) <> 0)
        then Some (fdiv (of_int (pair_value batPack (Z.to_nat (k - 1))))
                        (of_int 1000))
        else pack !! k.
Proof.
  intros Hlen fuel. induction fuel as [|fuel IH]; intros j pack Hj Hfuel.
  - exists pack. split; [reflexivity|]. intros k.
    destruct (decide _) as [[H _]|_]; [lia|reflexivity].
  - rewrite cell_loop_S. destruct (2 * j <? length batPack)%nat eqn:Elt.
    + apply Nat.ltb_lt in Elt.
      destruct (index_Ok batPack (2 * j + 1)) as (hi & Hhi & ->); [lia|].
      destruct (index_Ok batPack (2 * j)) as (lo & Hlo & ->); [lia|].
      rewrite !bind_Ok. cbv zeta. rewrite binaryToInt_pair.
      assert (Hpv : byte_val lo + 256 * byte_val hi = pair_value batPack j).
      { unfold pair_value. now rewrite (byte_at_lookup _ _ _ Hhi), (byte_at_lookup _ _ _ Hlo). }
      rewrite Hpv. replace (2 * j + 2)%nat with (2 * S j)%nat by lia.
      assert (Hcell : Z.of_nat (2 * j) / 2 + 1 = Z.of_nat (S j)).
      { rewrite Nat2Z.inj_mul. change (Z.of_nat 2) with 2.
        rewrite (Z.mul_comm 2), Z.div_mul by lia. lia. }
      rewrite Hcell.
      destruct (pair_value batPack j =? 0) eqn:Ez.
      * apply Z.eqb_eq in Ez.
        destruct (IH (S j) pack) as (pack' & -> & Hp); [lia|lia|].
        exists pack'. split; [reflexivity|]. intros k. rewrite Hp.
        destruct (decide _) as [[H1 H2]|Hn1]; destruct (decide _) as [[H3 H4]|Hn2];
          try reflexivity.
        -- exfalso. apply Hn2. split; [lia|assumption].
        -- exfalso. apply Hn1. split; [|assumption].
           assert (k <> Z.of_nat (S j)); [|lia].
           intros ->. apply H4. replace (Z.to_nat (Z.of_nat (S j) - 1)) with j by lia.
           assumption.
      * apply Z.eqb_neq in Ez.
        destruct (IH (S j) (<[Z.of_nat (S j) :=
                     fdiv (of_int (pair_value batPack j)) (of_int 1000)]> pack))
          as (pack' & -> & Hp); [lia|lia|].
        exists pack'. split; [reflexivity|]. intros k. rewrite Hp.
        destruct (decide _) as [[H1 H2]|Hn1]; destruct (decide _) as [[H3 H4]|Hn2];
          try reflexivity.
        -- exfalso. apply Hn2. split; [lia|assumption].
        -- destruct (decide (k = Z.of_nat (S j))) as [->|Hne].
           ++ rewrite lookup_insert_eq.
              now replace (Z.to_nat (Z.of_nat (S j) - 1)) with j by lia.
           ++ exfalso. apply Hn1. split; [lia|assumption].
        -- rewrite lookup_insert_ne; [reflexivity|].
           intros <-. apply Hn2. split; [lia|].
           now replace (Z.to_nat (Z.of_nat (S j) - 1)) with j by lia.
    + apply Nat.ltb_ge in Elt. exists pack. split; [reflexivity|]. intros k.
      destruct (decide _) as [[H _]|_]; [lia|reflexivity].
Qed.

(** ** The fields of a buffer *)

Lemma data_index_cases (data : list byte) (i : nat) :
  (exists b, (i < length data)%nat /\ index data i = Ok b) \/
  index data i = Err Panic.
Proof.
  unfold index. destruct (data !! i) as [b|] eqn:E; [left|now right].
  exists b. split; [|reflexivity]. apply lookup_lt_is_Some. eauto.
Qed.

Lemma lor_shiftl_add (x y k : Z) :
  0 <= k -> 0 <= x < 2 ^ k -> 0 <= y -> Z.lor x (Z.shiftl y k) = x + y * 2 ^ k.
Proof.
  intros Hk Hx Hy.
  assert (Hland : Z.land x (Z.shiftl y k) = 0).
  { apply Z.bits_inj'. intros n Hn. rewrite Z.land_spec, Z.bits_0.
    destruct (Z.lt_ge_cases n k) as [Hlt|Hge].
    - rewrite Z.shiftl_spec_low by lia. apply andb_false_r.
    - destruct (Z.eq_dec x 0) as [->|Hx0]; [now rewrite Z.bits_0|].
      rewrite (Z.bits_above_log2 x n); [reflexivity|lia|].
      apply Z.lt_le_trans with k; [|lia]. apply Z.log2_lt_pow2; lia. }
  rewrite <- Z.lxor_lor, <- Z.add_nocarry_lxor by assumption.
  now rewrite Z.shiftl_mul_pow2 by lia.
Qed.

Lemma binaryToInt_snoc_small (s : list byte) (b : byte) :
  (length s <= 6)%nat ->
  binaryToInt (s ++ [b]) = 256 * binaryToInt s + byte_val b.
Proof.
  intros Hs.
  pose proof (binaryToInt_range (s ++ [b])) as Hr.
  rewrite length_app in Hr. specialize (Hr ltac:(simpl; lia)).
  pose proof (binaryToInt_range s ltac:(lia)) as Hr'.
  pose proof (byte_val_range b) as Hb.
  assert (H56 : 2 ^ (8 * Z.of_nat (length s + length [b])) <= 2 ^ 56)
    by (apply Z.pow_le_mono_r; simpl length; lia).
  assert (H63 : 2 ^ 56 < 2 ^ 63) by (apply Z.pow_lt_mono_r; lia).
  rewrite binaryToInt_snoc in Hr |- *.
  rewrite lor_shiftl_8 in Hr |- * by lia.
  rewrite wrap64_small; [reflexivity|].
  assert (Hw : wrap64 (256 * binaryToInt s + byte_val b) =
               (256 * binaryToInt s + byte_val b + 2 ^ 63) mod 2 ^ 64 - 2 ^ 63)
    by reflexivity.
  assert (0 <= binaryToInt s < 2 ^ 48).
  { split; [lia|]. apply Z.lt_le_trans with (2 ^ (8 * Z.of_nat (length s))); [lia|].
    apply Z.pow_le_mono_r; lia. }
  assert (2 ^ 48 * 256 + 256 < 2 ^ 63) by reflexivity.
  lia.
Qed.

Lemma binaryToInt_4 (b0 b1 b2 b3 : byte) :
  binaryToInt [b0; b1; b2; b3] =
  byte_val b0 * 2 ^ 24 + byte_val b1 * 2 ^ 16 + byte_val b2 * 2 ^ 8 + byte_val b3.
Proof.
  change [b0; b1; b2; b3] with (((([] ++ [b0]) ++ [b1]) ++ [b2]) ++ [b3]).
  rewrite !binaryToInt_snoc_small by (simpl; lia).
  change (binaryToInt []) with 0.
  change (2 ^ 24) with 16777216. change (2 ^ 16) with 65536.
  change (2 ^ 8) with 256. lia.
Qed.

Lemma binaryToInt_2 (hi lo : byte) :
  binaryToInt [hi; lo] = 256 * byte_val hi + byte_val lo.
Proof.
  rewrite <- (to_int_binaryToInt [hi; lo]) by (simpl; lia).
  rewrite binaryToInt_pair. lia.
Qed.

Lemma take_4_drop (data : list byte) (i : nat) :
  (i + 4 <= length data)%nat ->
  take 4 (drop i data) =
  [byte_at data i; byte_at data (i + 1); byte_at data (i + 2); byte_at data (i + 3)].
Proof.
  intros Hlen.
  assert (Hat : forall j, (j < length data)%nat -> data !! j = Some (byte_at data j)).
  { intros j Hj. destruct (lookup_lt_is_Some_2 data j Hj) as [b Hb].
    now rewrite (byte_at_lookup _ _ _ Hb). }
  apply list_eq. intros j.
  destruct (decide (j < 4)%nat) as [Hj|Hj].
  - rewrite lookup_take_lt, lookup_drop by lia. rewrite Hat by lia.
    destruct j as [|[|[|[|j]]]]; try lia; simpl; repeat f_equal; lia.
  - rewrite lookup_take_ge by lia.
    destruct j as [|[|[|[|j]]]]; try lia. reflexivity.
Qed.

Lemma take_2_drop (data : list byte) (i : nat) :
  (i + 2 <= length data)%nat ->
  take 2 (drop i data) = [byte_at data i; byte_at data (i + 1)].
Proof.
  intros Hlen.
  assert (Hat : forall j, (j < length data)%nat -> data !! j = Some (byte_at data j)).
  { intros j Hj. destruct (lookup_lt_is_Some_2 data j Hj) as [b Hb].
    now rewrite (byte_at_lookup _ _ _ Hb). }
  apply list_eq. intros j.
  destruct (decide (j < 2)%nat) as [Hj|Hj].
  - rewrite lookup_take_lt, lookup_drop by lia. rewrite Hat by lia.
    destruct j as [|[|j]]; try lia; simpl; repeat f_equal; lia.
  - rewrite lookup_take_ge by lia.
    destruct j as [|[|j]]; try lia. reflexivity.
Qed.

Lemma binaryToIntBigEndian_rev (data : list byte) :
  length data = 4%nat -> binaryToIntBigEndian data = Ok (binaryToInt (rev data)).
Proof.
  intros H4.
  destruct data as [|b0 [|b1 [|b2 [|b3 [|? ?]]]]]; try discriminate.
  rewrite binaryToIntBigEndian_4. simpl rev. rewrite binaryToInt_4. f_equal.
  pose proof (byte_val_range b0). pose proof (byte_val_range b1).
  pose proof (byte_val_range b2). pose proof (byte_val_range b3).
  assert (E8 : 2 ^ 8 = 256) by reflexivity.
  assert (E16 : 2 ^ 16 = 65536) by reflexivity.
  assert (E24 : 2 ^ 24 = 16777216) by reflexivity.
  rewrite (lor_shiftl_add _ _ 8) by lia.
  rewrite (lor_shiftl_add _ _ 16) by lia.
  rewrite (lor_shiftl_add _ _ 24) by lia.
  lia.
Qed.

Lemma field_length (data : list byte) (lo n : nat) :
  (lo + n <= length data)%nat -> length (field data lo n) = n.
Proof. intros H. unfold field. rewrite length_take, length_drop. lia. Qed.

Lemma field_ext (d1 d2 : list byte) (lo n : nat) :
  (forall i : nat, (lo <= i < lo + n)%nat -> d1 !! i = d2 !! i) ->
  field d1 lo n = field d2 lo n.
Proof.
  intros H. unfold field. apply list_eq. intros j.
  destruct (decide (j < n)%nat) as [Hj|Hj].
  - rewrite !lookup_take_lt, !lookup_drop by lia. apply H. lia.
  - now rewrite !lookup_take_ge by lia.
Qed.

Lemma field_app (data spare : list byte) (lo n : nat) :
  (lo + n <= length data)%nat -> field (data ++ spare) lo n = field data lo n.
Proof.
  intros H. apply field_ext. intros i Hi. apply lookup_app_l. lia.
Qed.

Lemma index_field (data : list byte) (lo n i : nat) :
  (i < n)%nat -> (lo + n <= length data)%nat ->
  index (field data lo n) i = Ok (byte_at data (lo + i)).
Proof.
  intros Hi Hlen. unfold index, field.
  rewrite lookup_take_lt, lookup_drop by lia.
  destruct (lookup_lt_is_Some_2 data (lo + i) ltac:(lia)) as [b Hb].
  now rewrite Hb, (byte_at_lookup _ _ _ Hb).
Qed.

Lemma field_4 (data : list byte) (lo : nat) :
  (lo + 4 <= length data)%nat ->
  to_int (binaryToInt (field data lo 4)) =
  byte_val (byte_at data lo) * 2 ^ 24 + byte_val (byte_at data (lo + 1)) * 2 ^ 16 +
  byte_val (byte_at data (lo + 2)) * 2 ^ 8 + byte_val (byte_at data (lo + 3)).
Proof.
  intros Hlen. rewrite to_int_binaryToInt by (rewrite field_length; lia).
  unfold field. rewrite take_4_drop by lia. apply binaryToInt_4.
Qed.

Lemma int_field_range (data : list byte) (lo n : nat) :
  (lo + n <= length data)%nat -> (n <= 7)%nat ->
  0 <= to_int (binaryToInt (field data lo n)) < 2 ^ (8 * Z.of_nat n).
Proof.
  intros Hlen Hn. pose proof (field_length data lo n Hlen) as Hl.
  rewrite to_int_binaryToInt by lia.
  pose proof (binaryToInt_range (field data lo n) ltac:(lia)) as Hr.
  now rewrite Hl in Hr.
Qed.

Lemma getBatteryStatus_unfold (battery : BatteryInfo) :
  getBatteryStatus battery =
  if ((100 <=? SOC battery) || (BatteryState battery =? 4))%bool
  then "Full Charge"%string
  else if feqb (Current battery) fzero then "Standby"%string
  else if fltb fzero (Current battery) then "Charging"%string
  else if fltb (Current battery) fzero then "Discharging"%string
  else EmptyString.
Proof. reflexivity. Qed.

Lemma decoded_BatteryStatus (data : list byte) :
  BatteryStatus (decoded data) = getBatteryStatus (decoded data).
Proof. now rewrite getBatteryStatus_unfold. Qed.

(** ** parseBatteryInfo in closed form *)

Ltac slice_ok data lo hi :=
  rewrite (bind_slice_Ok data lo hi) by lia; cbv beta; cbn [elems].

(** The decoder returns when the length reaches the index 68 and the
    capacity the bound 104 of the last slice; the record is read off the
    backing array. *)
Lemma parseBatteryInfo_decoded (data : Slice) :
  (69 <= len data)%nat -> (104 <= cap data)%nat ->
  parseBatteryInfo data = Ok (decoded (backing data)).
Proof.
  intros Hlen Hcap. unfold parseBatteryInfo.
  pose proof (length_backing data) as HB.
  slice_ok data 12%nat 16%nat. slice_ok data 8%nat 12%nat.
  rewrite binaryToIntBigEndian_rev by (apply slice_length; lia).
  rewrite bind_Ok. slice_ok data 12%nat 16%nat.
  rewrite binaryToIntBigEndian_rev by (apply slice_length; lia).
  rewrite bind_Ok. slice_ok data 16%nat 48%nat. unfold len at 1. cbn [elems].
  destruct (cell_loop_spec (take (48 - 16) (drop 16 (backing data))) 16
              ltac:(apply slice_length; lia)
              (length (take (48 - 16) (drop 16 (backing data)))) 0%nat ∅)
    as (pack & Hpack & _); [lia|rewrite (slice_length (backing data) 16 48) by lia; simpl; lia|].
  change (2 * 0)%nat with 0%nat in Hpack. rewrite Hpack, bind_Ok.
  assert (Hcm : cell_map (field (backing data) 16 32) = pack).
  { unfold cell_map, field. change (48 - 16)%nat with 32%nat in Hpack.
    now rewrite Hpack. }
  slice_ok data 48%nat 52%nat. cbv zeta.
  slice_ok data 62%nat 64%nat. slice_ok data 64%nat 66%nat.
  slice_ok data 52%nat 54%nat. slice_ok data 54%nat 56%nat.
  slice_ok data 68%nat 72%nat.
  destruct (index_Ok (elems data) 68) as (b68 & Hb68 & ->);
    [unfold len in Hlen; lia|].
  rewrite bind_Ok.
  assert (HB68 : (backing data) !! 68%nat = Some b68) by (apply lookup_app_l_Some, Hb68).
  slice_ok data 76%nat 80%nat. slice_ok data 80%nat 84%nat.
  slice_ok data 84%nat 88%nat. slice_ok data 88%nat 90%nat.
  slice_ok data 90%nat 92%nat. slice_ok data 92%nat 96%nat.
  slice_ok data 96%nat 100%nat. slice_ok data 100%nat 104%nat.
  cbn [FailureState set_BalanceStatus set_BatteryStatus set_CellStatus Heat].
  pose proof (index_field (backing data) 80 4 0 ltac:(lia) ltac:(lia)) as H80.
  pose proof (index_field (backing data) 80 4 1 ltac:(lia) ltac:(lia)) as H81.
  unfold field in H80, H81. change (84 - 80)%nat with 4%nat.
  rewrite H80, bind_Ok, H81.
  assert (Hfault :
    (if 0 <? byte_val (byte_at (backing data) (80 + 0)) then Ok true
     else f1 ← Ok (byte_at (backing data) (80 + 1)); Ok (0 <? byte_val f1))
    = Ok ((0 <? byte_val (byte_at (backing data) 80)) || (0 <? byte_val (byte_at (backing data) 81)))%bool).
  { change (80 + 0)%nat with 80%nat. change (80 + 1)%nat with 81%nat.
    destruct (0 <? byte_val (byte_at (backing data) 80)); reflexivity. }
  rewrite Hfault, bind_Ok.
  assert (Hh7 : string_index (EncodeToString (take (72 - 68) (drop 68 (backing data)))) 7 =
                Ok (hex_digit (Z.land (byte_val (byte_at (backing data) 71)) 15))).
  { change (72 - 68)%nat with 4%nat. rewrite take_4_drop by lia. reflexivity. }
  rewrite Hh7, bind_Ok.
  unfold decoded. rewrite Hcm. rewrite (byte_at_lookup _ _ _ HB68).
  unfold field. f_equal.
Qed.

Ltac slice_step data lo hi :=
  destruct (slice_cases data lo hi) as [[? ->]|[? ->]];
  [ rewrite bind_Ok; cbv beta; cbn [elems] | reflexivity ].

(** The decoder panics when the length does not reach the index 68 or the
    capacity falls short of 104. *)
Lemma parseBatteryInfo_panics (data : Slice) :
  (len data < 69 \/ cap data < 104)%nat -> parseBatteryInfo data = Err Panic.
Proof.
  intros H. unfold parseBatteryInfo.
  pose proof (length_backing data) as HB.
  slice_step data 12%nat 16%nat. slice_step data 8%nat 12%nat.
  rewrite binaryToIntBigEndian_rev by (apply slice_length; lia).
  rewrite !bind_Ok. cbv beta. cbn [elems].
  rewrite binaryToIntBigEndian_rev by (apply slice_length; lia).
  rewrite bind_Ok. slice_step data 16%nat 48%nat. unfold len at 1. cbn [elems].
  destruct (cell_loop_spec (take (48 - 16) (drop 16 (backing data))) 16
              ltac:(apply slice_length; lia)
              (length (take (48 - 16) (drop 16 (backing data)))) 0%nat ∅)
    as (pack & Hpack & _); [lia|rewrite (slice_length (backing data) 16 48) by lia; simpl; lia|].
  change (2 * 0)%nat with 0%nat in Hpack. rewrite Hpack, bind_Ok.
  slice_step data 48%nat 52%nat. cbv zeta.
  slice_step data 62%nat 64%nat. slice_step data 64%nat 66%nat.
  slice_step data 52%nat 54%nat. slice_step data 54%nat 56%nat.
  slice_step data 68%nat 72%nat.
  destruct (data_index_cases (elems data) 68) as [(b68 & H68 & ->)| ->];
    [rewrite bind_Ok|reflexivity].
  slice_step data 76%nat 80%nat. slice_step data 80%nat 84%nat.
  slice_step data 84%nat 88%nat. slice_step data 88%nat 90%nat.
  slice_step data 90%nat 92%nat. slice_step data 92%nat 96%nat.
  slice_step data 96%nat 100%nat. slice_step data 100%nat 104%nat.
  exfalso. unfold len in H. lia.
Qed.

(** What the decoder returns is the closed form on the backing array. *)
Lemma parseBatteryInfo_Ok_inv (data : Slice) (b : BatteryInfo) :
  parseBatteryInfo data = Ok b ->
  (69 <= len data)%nat /\ (104 <= cap data)%nat /\ b = decoded (backing data).
Proof.
  intros H.
  destruct (le_lt_dec 69 (len data)) as [Hl|Hl];
    [|rewrite parseBatteryInfo_panics in H by lia; discriminate].
  destruct (le_lt_dec 104 (cap data)) as [Hc|Hc];
    [|rewrite parseBatteryInfo_panics in H by lia; discriminate].
  rewrite (parseBatteryInfo_decoded data Hl Hc) in H. injection H as <-. auto.
Qed.

Ltac used_nat :=
  unfold used_offset;
  repeat match goal with
         | |- context [(?a <=? ?b)%nat] =>
             destruct (Nat.leb_spec a b)
         | |- context [(?a <? ?b)%nat] =>
             destruct (Nat.ltb_spec a b)
         end; simpl; try reflexivity; lia.

Lemma used_offset_lt (i : nat) : used_offset i = true -> (i < 104)%nat.
Proof.
  unfold used_offset.
  destruct (Nat.ltb_spec i 104); [lia|].
  destruct (Nat.ltb_spec i 56); [lia|].
  destruct (Nat.ltb_spec i 66); [lia|].
  destruct (Nat.ltb_spec i 72); [lia|].
  rewrite !andb_false_r. discriminate.
Qed.

Lemma decoded_ext (d1 d2 : list byte) :
  (forall i : nat, used_offset i = true -> d1 !! i = d2 !! i) ->
  decoded d1 = decoded d2.
Proof.
  intros H.
  assert (Hf : forall lo n, (forall j, (lo <= j < lo + n)%nat -> used_offset j = true) ->
                 field d1 lo n = field d2 lo n).
  { intros lo n Hu. apply field_ext. intros i Hi. apply H, Hu, Hi. }
  assert (Hb : forall i, used_offset i = true -> byte_at d1 i = byte_at d2 i).
  { intros i Hi. unfold byte_at. now rewrite (H i Hi). }
  unfold decoded.
  rewrite (Hf 8 4)%nat, (Hf 12 4)%nat, (Hf 16 32)%nat, (Hf 48 4)%nat,
    (Hf 62 2)%nat, (Hf 64 2)%nat, (Hf 52 2)%nat, (Hf 54 2)%nat,
    (Hf 68 4)%nat, (Hf 76 4)%nat, (Hf 80 4)%nat, (Hf 84 4)%nat,
    (Hf 88 2)%nat, (Hf 90 2)%nat, (Hf 92 4)%nat, (Hf 96 4)%nat,
    (Hf 100 4)%nat by (intros; used_nat).
  rewrite (Hb 68%nat), (Hb 71%nat), (Hb 80%nat), (Hb 81%nat) by reflexivity.
  reflexivity.
Qed.

Lemma decoded_app (data spare : list byte) :
  (104 <= length data)%nat -> decoded (data ++ spare) = decoded data.
Proof.
  intros Hlen. apply decoded_ext. intros i Hi.
  apply lookup_app_l. apply used_offset_lt in Hi. lia.
Qed.

(** ** parseBatteryInfo on frames of at least 104 bytes *)

(** On a frame of at least 104 bytes the spare capacity plays no part. *)
Lemma parseBatteryInfo_frame (data spare : list byte) :
  (104 <= length data)%nat ->
  parseBatteryInfo (mkSlice data spare) = Ok (decoded data).
Proof.
  intros Hlen.
  rewrite parseBatteryInfo_decoded by (unfold len, cap; simpl; lia).
  unfold backing; simpl. now rewrite decoded_app.
Qed.

(** A frame of at least 104 bytes is decoded, and the fields of the record
    are the following functions of the bytes. *)
Lemma parseBatteryInfo_long (data spare : list byte) :
  (104 <= length data)%nat ->
  exists (b : BatteryInfo) (voltage : Z) (pack : gmap Z spec_float) (b68 : byte),
    parseBatteryInfo (mkSlice data spare) = Ok b /\
    binaryToIntBigEndian (take 4 (drop 12 data)) = Ok voltage /\
    0 <= voltage < 2 ^ 32 /\
    cell_loop 32 (take 32 (drop 16 data)) 0 ∅ = Ok pack /\
    data !! 68%nat = Some b68 /\
    Voltage b = voltage /\
    BatteryPack b = pack /\
    Current b =
      fdiv (of_int (to_int (binaryToInt (take 4 (drop 48 data))))) (of_int 1000) /\
    Watt b =
      fdiv (Round (fmul (fdiv (fmul (of_int (Voltage b)) (Current b))
                              (of_int 10000)) (of_int 100))) (of_int 100) /\
    DischargeSwitchState b = (if 8 <=? Z.shiftr (byte_val b68) 7 then 0 else 1) /\
    BatteryState b = to_int (binaryToInt (take 2 (drop 88 data))) /\
    SOC b = to_int (binaryToInt (take 2 (drop 90 data))) /\
    BatteryStatus b = getBatteryStatus b.
Proof.
  intros Hlen.
  destruct (binaryToIntBigEndian_range (take 4 (drop 12 data)))
    as (voltage & Hv & Hvr); [apply (slice_length data 12 16); lia|].
  destruct (cell_loop_spec (take 32 (drop 16 data)) 16
              ltac:(apply (slice_length data 16 48); lia) 32%nat 0%nat ∅)
    as (pack & Hpack & _); [lia|lia|].
  change (2 * 0)%nat with 0%nat in Hpack.
  destruct (lookup_lt_is_Some_2 data 68 ltac:(lia)) as [b68 H68].
  exists (decoded data), voltage, pack, b68.
  split; [now apply parseBatteryInfo_frame|].
  assert (HV : binaryToInt (rev (field data 12 4)) = voltage).
  { unfold field.
    rewrite binaryToIntBigEndian_rev in Hv by (apply (slice_length data 12 16); lia).
    now injection Hv. }
  assert (HP : cell_map (field data 16 32) = pack).
  { unfold cell_map. rewrite field_length by lia. unfold field.
    now rewrite Hpack. }
  rewrite getBatteryStatus_unfold.
  unfold decoded; cbn [Voltage BatteryPack Current Watt DischargeSwitchState
    BatteryState SOC BatteryStatus].
  rewrite HV, HP, (byte_at_lookup _ _ _ H68).
  repeat split; try assumption; try reflexivity; lia.
Qed.

(** ** The four-byte fields as numbers *)

(** The decoded voltage and current of a frame, as numbers read off its
    bytes: the voltage field least significant byte first, the current
    field most significant byte first and unsigned. *)
Lemma parseBatteryInfo_fields (data spare : list byte) :
  (104 <= length data)%nat ->
  exists b : BatteryInfo,
    parseBatteryInfo (mkSlice data spare) = Ok b /\
    Voltage b = voltage_field data /\
    to_int (binaryToInt (take 4 (drop 48 data))) = current_field data /\
    Current b = fdiv (of_int (current_field data)) (of_int 1000) /\
    Watt b =
      fdiv (Round (fmul (fdiv (fmul (of_int (Voltage b)) (Current b))
                              (of_int 10000)) (of_int 100))) (of_int 100).
Proof.
  intros Hlen.
  destruct (parseBatteryInfo_long data spare Hlen)
    as (b & v & pack & b68 & Hb & Hv & _ & _ & _ & HV & _ & HC & HW & _).
  exists b. split; [exact Hb|].
  assert (Hcur : to_int (binaryToInt (take 4 (drop 48 data))) = current_field data).
  { rewrite to_int_binaryToInt by (rewrite length_take; lia).
    rewrite take_4_drop by lia. apply binaryToInt_4. }
  repeat split.
  - rewrite HV. rewrite take_4_drop, binaryToIntBigEndian_4 in Hv by lia.
    injection Hv as <-.
    pose proof (byte_val_range (byte_at data 12)).
    pose proof (byte_val_range (byte_at data 13)).
    pose proof (byte_val_range (byte_at data 14)).
    pose proof (byte_val_range (byte_at data 15)).
    assert (E8 : 2 ^ 8 = 256) by reflexivity.
    assert (E16 : 2 ^ 16 = 65536) by reflexivity.
    assert (E24 : 2 ^ 24 = 16777216) by reflexivity.
    rewrite (lor_shiftl_add _ _ 8) by lia.
    rewrite (lor_shiftl_add _ _ 16) by lia.
    rewrite (lor_shiftl_add _ _ 24) by lia.
    reflexivity.
  - exact Hcur.
  - rewrite HC. now rewrite Hcur.
  - exact HW.
Qed.

(** * Properties of the frame decoder *)

(** The decoder on the sample frame: 13.3 V, 2.5 A, 3.33 W, 85 %. *)
Example parseBatteryInfo_charging_frame :
  exists b : BatteryInfo,
    parseBatteryInfo (mkSlice charging_frame []) = Ok b /\
    PackVoltage b = 13300 /\ Voltage b = 13300 /\
    Current b = fdiv (of_int 5) (of_int 2) /\
    Watt b = fdiv (of_int 333) (of_int 100) /\
    BatteryPack b !! 1 = Some (fdiv (of_int 3325) (of_int 1000)) /\
    BatteryPack b !! 5 = None /\
    SOC b = 85 /\
    DischargeSwitchState b = 1 /\
    Heat b = "00000080"%string /\
    BatteryStatus b = "Charging"%string /\
    HeatStatus b = "Self-heating is off"%string.
Proof.
  vm_compute. eexists. split; [reflexivity|]. repeat split; reflexivity.
Qed.

(** C1, as the code has it.  The decoder has no error result: on a
    buffer that is too short it is the Go run-time that panics, and nothing
    recovers.  It does so whenever the capacity of the buffer is below 104,
    the bound of the last slice expression, or its length is below 69, the
    length the one index expression [data[68]] needs.  Such a buffer has
    fewer than 104 bytes, and every buffer of fewer than 104 bytes whose
    capacity is its length is one; no record, partial or complete, is
    returned for it. *)
Theorem parseBatteryInfo_truncated (data : Slice) :
  (len data < 69 \/ cap data < 104)%nat ->
  (len data < 104)%nat /\
  parseBatteryInfo data = Err Panic /\
  forall b : BatteryInfo, parseBatteryInfo data <> Ok b.
Proof.
  intros H. rewrite (parseBatteryInfo_panics data H).
  split; [unfold len, cap in *; lia|].
  split; [reflexivity | discriminate].
Qed.

Lemma parseBatteryInfo_truncated_witness :
  (len (mkSlice (take 103 charging_frame) []) < 104)%nat /\
  parseBatteryInfo (mkSlice (take 103 charging_frame) []) = Err Panic.
Proof.
  assert (H : (len (mkSlice (take 103 charging_frame) []) < 69 \/
               cap (mkSlice (take 103 charging_frame) []) < 104)%nat)
    by (right; vm_compute; lia).
  destruct (parseBatteryInfo_truncated _ H) as (H1 & H2 & _).
  split; [exact H1 | exact H2].
Defined.

(** C1 as it is stated fails.  [short_with_capacity] has 103 bytes, fewer
    than 104, and a capacity of 104: no slice expression of the decoder
    reaches beyond the capacity, so the decoder returns a record, the same
    as for the whole of [charging_frame], whose last field is read from
    beyond the length of the buffer. *)
Lemma parseBatteryInfo_spare_capacity :
  len short_with_capacity = 103%nat /\
  cap short_with_capacity = 104%nat /\
  parseBatteryInfo short_with_capacity =
    parseBatteryInfo (mkSlice charging_frame []) /\
  (exists b : BatteryInfo,
     parseBatteryInfo short_with_capacity = Ok b /\ DischargesAHCount b = 1234) /\
  parseBatteryInfo short_with_capacity <> Err Panic.
Proof.
  split; [reflexivity|]. split; [reflexivity|].
  assert (H : parseBatteryInfo short_with_capacity =
              Ok (decoded charging_frame)).
  { rewrite parseBatteryInfo_decoded by (vm_compute; lia). reflexivity. }
  rewrite H, parseBatteryInfo_frame by (vm_compute; lia).
  split; [reflexivity|]. split; [|discriminate].
  eexists. split; [reflexivity|]. vm_compute. reflexivity.
Qed.

(** The current of a frame whose byte 48 has its high bit set: the decoder
    yields a positive number. *)
Lemma parseBatteryInfo_current_high_bit (data spare : list byte) :
  (104 <= length data)%nat ->
  128 <= byte_val (byte_at data 48) ->
  exists b : BatteryInfo,
    parseBatteryInfo (mkSlice data spare) = Ok b /\
    fltb fzero (Current b) = true /\ fltb (Current b) fzero = false.
Proof.
  intros Hlen H48.
  destruct (parseBatteryInfo_fields data spare Hlen) as (b & Hb & _ & _ & HC & _).
  exists b. split; [exact Hb|].
  assert (Hpos : pos_fin (53 + 53 + 107) (Current b)).
  { rewrite HC. apply fdiv_pos; try lia; apply of_int_pos; [|split; reflexivity].
    unfold current_field.
    pose proof (byte_val_range (byte_at data 48)).
    pose proof (byte_val_range (byte_at data 49)).
    pose proof (byte_val_range (byte_at data 50)).
    pose proof (byte_val_range (byte_at data 51)).
    assert (E8 : 2 ^ 8 = 256) by reflexivity.
    assert (E16 : 2 ^ 16 = 65536) by reflexivity.
    assert (E24 : 2 ^ 24 = 16777216) by reflexivity.
    assert (E63 : 2 ^ 63 = 9223372036854775808) by reflexivity.
    lia. }
  destruct (pos_fin_sign _ _ Hpos) as (H1 & _ & H2). now split.
Qed.

(** C2 fails on the code.  On [discharging_frame] the current field is
    [ff ff f6 3c]: the decoder yields 4294964.796, a positive current and
    the status "Charging", where the signed reading of the field gives
    -2.5. *)
Theorem parseBatteryInfo_current_unsigned :
  exists b : BatteryInfo,
    parseBatteryInfo (mkSlice discharging_frame []) = Ok b /\
    Current b = fdiv (of_int 4294964796) (of_int 1000) /\
    fltb fzero (Current b) = true /\
    BatteryStatus b = "Charging"%string /\
    spec_Current discharging_frame = fdiv (of_int (- 2500)) (of_int 1000) /\
    fltb (spec_Current discharging_frame) fzero = true /\
    Current b <> spec_Current discharging_frame.
Proof.
  vm_compute. eexists. split; [reflexivity|].
  repeat split; try reflexivity.
  intros H. vm_compute in H. discriminate H.
Qed.

(** ** The derived status *)

Lemma fltb_zero_not_eq (x : spec_float) :
  fltb fzero x = true -> feqb x fzero = false.
Proof. destruct x as [[]|[]| |[] m e]; simpl; intros H; try discriminate; reflexivity. Qed.

Lemma fltb_neg_not_eq (x : spec_float) :
  fltb x fzero = true -> feqb x fzero = false /\ fltb fzero x = false.
Proof. destruct x as [[]|[]| |[] m e]; simpl; intros H; try discriminate; split; reflexivity. Qed.

Lemma getBatteryStatus_cases (battery : BatteryInfo) :
  (100 <= SOC battery \/ BatteryState battery = 4 ->
   getBatteryStatus battery = "Full Charge"%string) /\
  (~ (100 <= SOC battery \/ BatteryState battery = 4) ->
   (feqb (Current battery) fzero = true ->
    getBatteryStatus battery = "Standby"%string) /\
   (fltb fzero (Current battery) = true ->
    getBatteryStatus battery = "Charging"%string) /\
   (fltb (Current battery) fzero = true ->
    getBatteryStatus battery = "Discharging"%string)).
Proof.
  unfold getBatteryStatus. split.
  - intros H.
    assert (Hb : ((100 <=? SOC battery) || (BatteryState battery =? 4))%bool = true).
    { apply orb_true_iff. destruct H as [H|H]; [left; now apply Z.leb_le|right; now apply Z.eqb_eq]. }
    now rewrite Hb.
  - intros H.
    assert (Hb : ((100 <=? SOC battery) || (BatteryState battery =? 4))%bool = false).
    { apply orb_false_iff. split; [apply Z.leb_gt|apply Z.eqb_neq]; lia. }
    rewrite Hb. repeat split.
    + now intros ->.
    + intros Hgt. now rewrite (fltb_zero_not_eq _ Hgt), Hgt.
    + intros Hlt. destruct (fltb_neg_not_eq _ Hlt) as [-> ->]. now rewrite Hlt.
Qed.

(** C3. The status of every decoded record: "Full Charge" whenever the
    state of charge is at least 100 or the battery state is 4, whatever
    the current; otherwise "Standby" for a zero current, "Charging" for a
    positive one and "Discharging" for a negative one. *)
Theorem parseBatteryInfo_status (data : Slice) (b : BatteryInfo) :
  parseBatteryInfo data = Ok b ->
  (100 <= SOC b \/ BatteryState b = 4 ->
   BatteryStatus b = "Full Charge"%string) /\
  (~ (100 <= SOC b \/ BatteryState b = 4) ->
   (feqb (Current b) fzero = true -> BatteryStatus b = "Standby"%string) /\
   (fltb fzero (Current b) = true -> BatteryStatus b = "Charging"%string) /\
   (fltb (Current b) fzero = true -> BatteryStatus b = "Discharging"%string)).
Proof.
  intros H. destruct (parseBatteryInfo_Ok_inv data b H) as (_ & _ & ->).
  rewrite decoded_BatteryStatus. apply getBatteryStatus_cases.
Qed.

Lemma parseBatteryInfo_status_witness :
  exists b : BatteryInfo,
    parseBatteryInfo (mkSlice charging_frame []) = Ok b /\
    (~ (100 <= SOC b \/ BatteryState b = 4) ->
     fltb fzero (Current b) = true -> BatteryStatus b = "Charging"%string).
Proof.
  eexists. split; [vm_compute; reflexivity|].
  intros Hn Hc.
  refine (proj1 (proj2 (proj2
            (parseBatteryInfo_status (mkSlice charging_frame []) _ _) Hn)) Hc).
  vm_compute. reflexivity.
Defined.

(** ** Scaled fields *)

(** C4, as the code has it.  On every frame of at least 104 bytes the
    decoder returns, and [Watt] is the float64 quotient by 100 of
    [math.Round(p * 100)], where [p] is
    [voltage * (current_raw / 1000) / 10000] in float64 for the decoded
    voltage (bytes 12 to 15, least significant first) and the decoded raw
    current (bytes 48 to 51, most significant first, unsigned), the number
    that [Current] is a thousandth of.  The number [r] that is divided by
    100 stands for the integer nearest, halves away from zero, to the
    float64 product [p * 100]: not always to a hundred times [p]. *)
Theorem parseBatteryInfo_watt (data spare : list byte) :
  (104 <= length data)%nat ->
  exists (b : BatteryInfo) (r : spec_float),
    parseBatteryInfo (mkSlice data spare) = Ok b /\
    Voltage b = voltage_field data /\
    Current b = fdiv (of_int (current_field data)) (of_int 1000) /\
    Watt b = fdiv r (of_int 100) /\
    is_finite r = true /\
    Qeq (exact r)
        (inject_Z
           (nearest_int
              (exact (fmul (spec_product (Voltage b) (current_field data))
                           (of_int 100))))).
Proof.
  intros Hlen.
  destruct (parseBatteryInfo_fields data spare Hlen) as (b & Hb & HV & Hc & HC & HW).
  assert (Hcur : nonneg_fin 213 (Current b)).
  { rewrite HC, <- Hc. apply Current_nonneg. rewrite length_take. lia. }
  assert (Hv : 0 <= Voltage b < 2 ^ 32).
  { rewrite HV. unfold voltage_field.
    pose proof (byte_val_range (byte_at data 12)).
    pose proof (byte_val_range (byte_at data 13)).
    pose proof (byte_val_range (byte_at data 14)).
    pose proof (byte_val_range (byte_at data 15)).
    assert (E8 : 2 ^ 8 = 256) by reflexivity.
    assert (E16 : 2 ^ 16 = 65536) by reflexivity.
    assert (E24 : 2 ^ 24 = 16777216) by reflexivity.
    assert (E32 : 2 ^ 32 = 4294967296) by reflexivity.
    lia. }
  pose proof (scaled_product_nonneg (Voltage b) (Current b) Hv Hcur) as Hy.
  exists b, (Round (fmul (fdiv (fmul (of_int (Voltage b)) (Current b))
                              (of_int 10000)) (of_int 100))).
  repeat split; try assumption.
  - apply (nonneg_fin_is_finite 589). now apply Round_nonneg.
  - unfold spec_product. rewrite <- HC. now apply (Round_exact 589).
Qed.

Lemma parseBatteryInfo_watt_witness :
  exists (b : BatteryInfo) (r : spec_float),
    parseBatteryInfo (mkSlice charging_frame []) = Ok b /\
    Voltage b = voltage_field charging_frame /\
    Current b = fdiv (of_int (current_field charging_frame)) (of_int 1000) /\
    Watt b = fdiv r (of_int 100) /\
    is_finite r = true /\
    Qeq (exact r)
        (inject_Z
           (nearest_int
              (exact (fmul (spec_product (Voltage b) (current_field charging_frame))
                           (of_int 100))))).
Proof. apply (parseBatteryInfo_watt charging_frame []). vm_compute. lia. Defined.

(** C4 as it is stated fails.  On [rounding_frame] the voltage is 45176854
    and the raw current 2933841370.  In hundredths,
    [voltage * (current_raw / 1000) / 10000] lies strictly between
    1325417232316 and 1325417232316.5, both as the float64 number that
    these operations give and as the exact product of the two integers
    over [10 ^ 7]: rounded to two decimal places it is 13254172323.16.  The
    decoder yields 13254172323.17, because the float64 product by 100 is
    1325417232316.5. *)
Lemma parseBatteryInfo_watt_not_rounded :
  exists b : BatteryInfo,
    parseBatteryInfo (mkSlice rounding_frame []) = Ok b /\
    Voltage b = 45176854 /\
    current_field rounding_frame = 2933841370 /\
    Qlt (inject_Z 1325417232316)
        (Qmult (inject_Z 100) (exact (spec_product 45176854 2933841370))) /\
    Qlt (Qmult (inject_Z 100) (exact (spec_product 45176854 2933841370)))
        (Qplus (inject_Z 1325417232316) (Qmake 1 2)) /\
    Qlt (inject_Z 1325417232316)
        (Qmult (inject_Z 100) (Qmake (45176854 * 2933841370) 10000000)) /\
    Qlt (Qmult (inject_Z 100) (Qmake (45176854 * 2933841370) 10000000))
        (Qplus (inject_Z 1325417232316) (Qmake 1 2)) /\
    Qeq (exact (fmul (spec_product 45176854 2933841370) (of_int 100)))
        (Qmake 2650834464633 2) /\
    spec_Watt 45176854 2933841370 = fdiv (of_int 1325417232316) (of_int 100) /\
    Watt b = fdiv (of_int 1325417232317) (of_int 100) /\
    Watt b <> spec_Watt 45176854 2933841370.
Proof.
  eexists. split; [vm_compute; reflexivity|].
  do 9 (split; [vm_compute; reflexivity|]).
  intros H. vm_compute in H. discriminate H.
Qed.

(** ** The cell-voltage map *)

Lemma cell_raw_pair_value (data : list byte) (k : Z) :
  (48 <= length data)%nat -> 1 <= k <= 16 ->
  pair_value (take 32 (drop 16 data)) (Z.to_nat (k - 1)) = cell_raw data k.
Proof.
  intros Hlen Hk. unfold pair_value, cell_raw, byte_at.
  rewrite !lookup_take_lt by lia. rewrite !lookup_drop.
  repeat f_equal; lia.
Qed.

Lemma cell_value_nonzero (v : Z) :
  0 < v < 2 ^ 63 -> feqb (fdiv (of_int v) (of_int 1000)) fzero = false.
Proof.
  intros Hv.
  assert (H : pos_fin (53 + 53 + 107) (fdiv (of_int v) (of_int 1000))).
  { apply fdiv_pos; try lia; apply of_int_pos; [lia|].
    split; reflexivity. }
  now destruct (pos_fin_sign _ _ H) as (_ & -> & _).
Qed.

Lemma cell_raw_range (data : list byte) (k : Z) : 0 <= cell_raw data k < 2 ^ 16.
Proof.
  unfold cell_raw.
  pose proof (byte_val_range (byte_at data (Z.to_nat (16 + 2 * (k - 1))))).
  pose proof (byte_val_range (byte_at data (Z.to_nat (16 + 2 * (k - 1) + 1)))).
  change (2 ^ 16) with 65536. lia.
Qed.

(** C5. On every frame of at least 104 bytes the cell-voltage map has no
    key 0; every entry has a key between 1 and 16, a value that is not
    zero, and that value is the raw value of its pair (low byte before
    high byte) divided by 1000. *)
Theorem parseBatteryInfo_cells (data spare : list byte) :
  (104 <= length data)%nat ->
  exists b : BatteryInfo,
    parseBatteryInfo (mkSlice data spare) = Ok b /\
    BatteryPack b !! 0 = None /\
    forall (k : Z) (v : spec_float),
      BatteryPack b !! k = Some v ->
      1 <= k <= 16 /\
      feqb v fzero = false /\
      v = fdiv (of_int (cell_raw data k)) (of_int 1000).
Proof.
  intros Hlen.
  destruct (parseBatteryInfo_long data spare Hlen)
    as (b & v & pack & b68 & Hb & _ & _ & Hpack & _ & _ & HP & _).
  destruct (cell_loop_spec (take 32 (drop 16 data)) 16
              ltac:(apply (slice_length data 16 48); lia) 32%nat 0%nat ∅)
    as (pack' & Hpack' & Hlook); [lia|lia|].
  change (2 * 0)%nat with 0%nat in Hpack'. rewrite Hpack in Hpack'.
  injection Hpack' as <-.
  exists b. split; [exact Hb|]. rewrite HP. split.
  - rewrite Hlook. destruct (decide _) as [[H _]|_]; [lia|apply lookup_empty].
  - intros k x Hx. rewrite Hlook in Hx.
    destruct (decide _) as [[Hk Hnz]|_]; [|rewrite lookup_empty in Hx; discriminate].
    change (Z.of_nat 0) with 0 in Hk. change (Z.of_nat 16) with 16 in Hk.
    rewrite cell_raw_pair_value in Hx, Hnz by lia.
    injection Hx as <-. pose proof (cell_raw_range data k) as Hr.
    split; [lia|]. split; [|reflexivity].
    apply cell_value_nonzero. split; [lia|].
    apply Z.lt_trans with (2 ^ 16); [lia|]. apply Z.pow_lt_mono_r; lia.
Qed.

Lemma parseBatteryInfo_cells_witness :
  exists b : BatteryInfo,
    parseBatteryInfo (mkSlice charging_frame []) = Ok b /\
    BatteryPack b !! 0 = None /\
    forall (k : Z) (v : spec_float),
      BatteryPack b !! k = Some v ->
      1 <= k <= 16 /\
      feqb v fzero = false /\
      v = fdiv (of_int (cell_raw charging_frame k)) (of_int 1000).
Proof. apply (parseBatteryInfo_cells charging_frame []). vm_compute. lia. Defined.

(** ** The discharge switch *)

Lemma byte_shiftr_7 (b : byte) : 0 <= Z.shiftr (byte_val b) 7 <= 1.
Proof.
  pose proof (byte_val_range b) as H. rewrite Z.shiftr_div_pow2 by lia.
  change (2 ^ 7) with 128. split.
  - apply Z.div_pos; lia.
  - apply Z.lt_succ_r. apply Z.div_lt_upper_bound; lia.
Qed.

(** C6. On every frame of at least 104 bytes [DischargeSwitchState] is 0
    when byte 68 shifted right by 7 is at least 8 and 1 otherwise; that
    shift is at most 1, so the field is 1 on every frame. *)
Theorem parseBatteryInfo_discharge_switch (data spare : list byte) :
  (104 <= length data)%nat ->
  exists (b : BatteryInfo) (b68 : byte),
    parseBatteryInfo (mkSlice data spare) = Ok b /\
    data !! 68%nat = Some b68 /\
    DischargeSwitchState b = (if 8 <=? Z.shiftr (byte_val b68) 7 then 0 else 1) /\
    Z.shiftr (byte_val b68) 7 <= 1 /\
    DischargeSwitchState b = 1.
Proof.
  intros Hlen.
  destruct (parseBatteryInfo_long data spare Hlen)
    as (b & v & pack & b68 & Hb & _ & _ & _ & H68 & _ & _ & _ & _ & HD & _).
  exists b, b68. pose proof (byte_shiftr_7 b68) as Hs.
  repeat split; try assumption; [lia|].
  rewrite HD. destruct (8 <=? Z.shiftr (byte_val b68) 7) eqn:E; [|reflexivity].
  apply Z.leb_le in E. lia.
Qed.

Lemma parseBatteryInfo_discharge_switch_witness :
  exists (b : BatteryInfo) (b68 : byte),
    parseBatteryInfo (mkSlice charging_frame []) = Ok b /\
    charging_frame !! 68%nat = Some b68 /\
    DischargeSwitchState b = (if 8 <=? Z.shiftr (byte_val b68) 7 then 0 else 1) /\
    Z.shiftr (byte_val b68) 7 <= 1 /\
    DischargeSwitchState b = 1.
Proof.
  apply (parseBatteryInfo_discharge_switch charging_frame []). vm_compute. lia.
Defined.

(** ** The sign of the current *)

Lemma getBatteryStatus_not_discharging (battery : BatteryInfo) :
  fltb (Current battery) fzero = false ->
  getBatteryStatus battery <> "Discharging"%string.
Proof.
  intros H. unfold getBatteryStatus. rewrite H.
  destruct ((100 <=? SOC battery) || (BatteryState battery =? 4))%bool;
    [discriminate|].
  destruct (feqb (Current battery) fzero); [discriminate|].
  destruct (fltb fzero (Current battery)); discriminate.
Qed.

(** Seven bytes is the limit: on eight bytes the accumulation reaches the
    sign bit of [int64]. *)
Example binaryToInt_8_bytes : binaryToInt (replicate 8 xff) = -1.
Proof. vm_compute. reflexivity. Qed.

(** C9. [binaryToInt] is non-negative on every slice of at most seven
    bytes.  Hence on every frame of at least 104 bytes the decoded
    [Current] is at least zero, [Watt] is at least zero, and the status is
    never "Discharging". *)
Theorem parseBatteryInfo_never_discharging (data spare : list byte) :
  (104 <= length data)%nat ->
  (forall s : list byte, (length s <= 7)%nat -> 0 <= binaryToInt s) /\
  exists b : BatteryInfo,
    parseBatteryInfo (mkSlice data spare) = Ok b /\
    fleb fzero (Current b) = true /\
    fleb fzero (Watt b) = true /\
    BatteryStatus b <> "Discharging"%string.
Proof.
  intros Hlen. split; [intros s Hs; apply (binaryToInt_range s Hs)|].
  destruct (parseBatteryInfo_long data spare Hlen)
    as (b & v & pack & b68 & Hb & _ & Hv & _ & _ & HV & _ & HC & HW & _ & _ & _ & Hst).
  assert (Hcur : nonneg_fin 213 (Current b)).
  { rewrite HC. apply Current_nonneg. rewrite length_take. lia. }
  assert (Hwatt : nonneg_fin 749 (Watt b)).
  { rewrite HW. apply Watt_nonneg; [rewrite HV|]; assumption. }
  exists b. split; [exact Hb|].
  destruct (nonneg_fin_fleb _ _ Hcur) as [Hc1 Hc2].
  destruct (nonneg_fin_fleb _ _ Hwatt) as [Hw1 _].
  repeat split; try assumption.
  rewrite Hst. now apply getBatteryStatus_not_discharging.
Qed.

Lemma parseBatteryInfo_never_discharging_witness :
  exists b : BatteryInfo,
    parseBatteryInfo (mkSlice discharging_frame []) = Ok b /\
    fleb fzero (Current b) = true /\
    fleb fzero (Watt b) = true /\
    BatteryStatus b <> "Discharging"%string.
Proof.
  assert (H : (104 <= length discharging_frame)%nat) by (vm_compute; lia).
  exact (proj2 (parseBatteryInfo_never_discharging discharging_frame [] H)).
Defined.

(** ** parseVersion *)

Lemma append_empty_r (s : string) : String.append s EmptyString = s.
Proof.
  induction s as [|a s IH]; [reflexivity|].
  change (String a (String.append s EmptyString) = String a s). now rewrite IH.
Qed.

Lemma append_snoc (acc : string) (c : ascii) (s : string) :
  String.append (String.append acc (String c EmptyString)) s =
  String.append acc (String c s).
Proof.
  induction acc as [|a acc IH]; [reflexivity|].
  change (String a (String.append (String.append acc (String c EmptyString)) s) =
          String a (String.append acc (String c s))).
  now rewrite IH.
Qed.

Lemma even_positions_cons {A : Type} (x : A) (l : list A) :
  even_positions (x :: l) = x :: even_positions (drop 1 l).
Proof. destruct l; reflexivity. Qed.

Lemma hardware_loop_S (fuel : nat) (start : list byte) (i : nat)
    (hardwareVersion : string) :
  hardware_loop (S fuel) start i hardwareVersion =
  if (i <? length start)%nat then
    ver ← index start i;
    if ((32 <=? byte_val ver) && (byte_val ver <=? 126))%bool
    then hardware_loop fuel start (i + 2)
           (String.append hardwareVersion
              (String (ascii_of_byte ver) EmptyString))
    else hardware_loop fuel start (i + 2) hardwareVersion
  else Ok hardwareVersion.
Proof. reflexivity. Qed.

(** With enough fuel the loop appends to its accumulator the printable
    bytes found at [i], [i + 2], ... *)
Lemma hardware_loop_spec (start : list byte) (fuel i : nat) (acc : string) :
  (length start <= i + 2 * fuel)%nat ->
  hardware_loop fuel start i acc =
  Ok (String.append acc
        (string_of_bytes
           (List.filter printable (even_positions (drop i start))))).
Proof.
  revert i acc. induction fuel as [|fuel IH]; intros i acc Hfuel.
  - rewrite drop_ge by lia. simpl. now rewrite append_empty_r.
  - rewrite hardware_loop_S. destruct (i <? length start)%nat eqn:Elt.
    + apply Nat.ltb_lt in Elt.
      destruct (index_Ok start i Elt) as (ver & Hver & ->). rewrite bind_Ok.
      rewrite (drop_S start ver i Hver), even_positions_cons, drop_drop.
      replace (S i + 1)%nat with (i + 2)%nat by lia.
      simpl List.filter. unfold printable at 1.
      change 0x20 with 32. change 0x7e with 126.
      destruct ((32 <=? byte_val ver) && (byte_val ver <=? 126))%bool.
      * rewrite IH by lia. simpl string_of_bytes. now rewrite append_snoc.
      * now rewrite IH by lia.
    + apply Nat.ltb_ge in Elt. rewrite drop_ge by lia. simpl.
      now rewrite append_empty_r.
Qed.

Lemma bind_slice_from_Ok {B} (data : Slice) (lo : nat) (f : Slice -> Result B) :
  (lo <= len data)%nat ->
  slice_from data lo ≫= f = f (mkSlice (drop lo (elems data)) (spare data)).
Proof.
  intros H. unfold slice_from. apply Nat.leb_le in H. now rewrite H.
Qed.

(** A slice expression within the length yields elements of the slice. *)
Lemma bind_slice_elems {B} (data : Slice) (lo hi : nat) (f : Slice -> Result B) :
  (lo <= hi <= len data)%nat ->
  slice data lo hi ≫= f =
  f (mkSlice (take (hi - lo) (drop lo (elems data))) (drop hi (backing data))).
Proof.
  intros H. unfold len in H.
  rewrite bind_slice_Ok by (unfold cap; lia).
  do 2 f_equal. apply (field_app (elems data) (spare data) lo (hi - lo)). lia.
Qed.

(** The decoder on the sample version response. *)
Example parseVersion_version_frame :
  parseVersion (mkSlice version_frame []) =
  Ok ("1.2.3", "2024-5-17", "BMS")%string.
Proof. vm_compute. reflexivity. Qed.

(** The three strings on a buffer of at least 18 bytes, in closed form:
    nothing beyond the length is read. *)
Lemma parseVersion_long (data : Slice) :
  (18 <= len data)%nat ->
  parseVersion data =
  Ok (String.append (Sprintf_d (be16_at (elems data) 8))
        (String.append "."
           (String.append (Sprintf_d (be16_at (elems data) 10))
              (String.append "." (Sprintf_d (be16_at (elems data) 12))))),
      String.append (Sprintf_d (be16_at (elems data) 14))
        (String.append "-"
           (String.append (Sprintf_d (byte_val (byte_at (elems data) 16)))
              (String.append "-"
                 (Sprintf_d (byte_val (byte_at (elems data) 17)))))),
      spec_hardwareVersion (elems data)).
Proof.
  intros Hlen. unfold parseVersion.
  rewrite bind_slice_from_Ok by lia.
  unfold len in Hlen.
  assert (Hl : length (drop 8 (elems data)) = (length (elems data) - 8)%nat)
    by apply length_drop.
  rewrite (bind_slice_elems _ 0 2) by (unfold len; cbn [elems]; lia).
  rewrite (bind_slice_elems _ 2 4) by (unfold len; cbn [elems]; lia).
  rewrite (bind_slice_elems _ 4 6) by (unfold len; cbn [elems]; lia).
  cbv zeta.
  rewrite (bind_slice_elems _ 6 8) by (unfold len; cbn [elems]; lia).
  unfold len. cbn [elems].
  destruct (index_Ok (drop 8 (elems data)) 8) as (b8 & H8 & ->); [lia|].
  rewrite bind_Ok.
  destruct (index_Ok (drop 8 (elems data)) 9) as (b9 & H9 & ->); [lia|].
  rewrite bind_Ok.
  rewrite hardware_loop_spec by lia. rewrite bind_Ok.
  rewrite lookup_drop in H8, H9.
  rewrite !drop_drop.
  change (2 - 0)%nat with 2%nat. change (4 - 2)%nat with 2%nat.
  change (6 - 4)%nat with 2%nat. change (8 - 6)%nat with 2%nat.
  rewrite !take_2_drop by lia. rewrite !binaryToInt_2.
  rewrite <- (byte_at_lookup _ _ _ H8), <- (byte_at_lookup _ _ _ H9).
  reflexivity.
Qed.

(** A version response shorter than 18 bytes is not decoded, whatever its
    capacity: the slices of the block may still be taken, the index
    expressions [start[8]] and [start[9]] panic. *)
Lemma parseVersion_short (data : Slice) :
  (len data < 18)%nat -> parseVersion data = Err Panic.
Proof.
  intros Hlen. unfold parseVersion, slice_from.
  destruct (8 <=? len data)%nat eqn:E8; [|reflexivity].
  apply Nat.leb_le in E8. rewrite bind_Ok.
  unfold len in Hlen, E8.
  assert (Hl : length (drop 8 (elems data)) = (length (elems data) - 8)%nat)
    by apply length_drop.
  set (start := mkSlice (drop 8 (elems data)) (spare data)).
  slice_step start 0%nat 2%nat. slice_step start 2%nat 4%nat.
  slice_step start 4%nat 6%nat. cbv zeta.
  slice_step start 6%nat 8%nat.
  subst start. cbn [elems].
  destruct (data_index_cases (drop 8 (elems data)) 8) as [(b8 & H8 & ->)| ->];
    [rewrite bind_Ok|reflexivity].
  destruct (data_index_cases (drop 8 (elems data)) 9) as [(b9 & H9 & ->)| ->];
    [lia|reflexivity].
Qed.

(** C8. On every version response that is decoded (18 bytes or more) the
    hardware-version string consists of exactly the bytes at the even
    positions of the block starting at offset 8 that lie in 0x20 to 0x7E,
    in order; the other bytes leave no trace in it. *)
Theorem parseVersion_hardwareVersion (data spare : list byte) :
  (18 <= length data)%nat ->
  exists firmwareVersion manufactureDate : string,
    parseVersion (mkSlice data spare) =
    Ok (firmwareVersion, manufactureDate, spec_hardwareVersion data).
Proof.
  intros Hlen.
  rewrite (parseVersion_long (mkSlice data spare)) by exact Hlen.
  eexists _, _. reflexivity.
Qed.

Lemma parseVersion_hardwareVersion_witness :
  exists firmwareVersion manufactureDate : string,
    parseVersion (mkSlice version_frame []) =
    Ok (firmwareVersion, manufactureDate, "BMS"%string).
Proof.
  assert (H : (18 <= length version_frame)%nat) by (vm_compute; lia).
  exact (parseVersion_hardwareVersion version_frame [] H).
Defined.

(** * Properties of the poll sequencer *)

(** C7 fails on the code.  The handler that [readBMS] registers runs
    [parseBatteryInfo] for GET_BATTERY_INFO, and no decoder at all for
    GET_VERSION and SERIAL_NUMBER: on [version_frame], a payload that
    [parseVersion] decodes, the handler of GET_VERSION does nothing. *)
Theorem notificationHandler_dispatch (data : Slice) :
  notificationHandler "GET_BATTERY_INFO" data =
    [DecodedBatteryInfo (parseBatteryInfo data)] /\
  notificationHandler "GET_VERSION" data = [] /\
  notificationHandler "SERIAL_NUMBER" data = [] /\
  notificationHandler "GET_VERSION" (mkSlice version_frame []) = [] /\
  spec_dispatch "GET_VERSION" (mkSlice version_frame []) =
    [DecodedVersion (Ok ("1.2.3", "2024-5-17", "BMS"))]%string /\
  notificationHandler "GET_VERSION" data <> spec_dispatch "GET_VERSION" data.
Proof.
  repeat split; try reflexivity. unfold notificationHandler, spec_dispatch.
  simpl. discriminate.
Qed.

Section SequencerProperties.
Context {T : Type} (char : Transport T).

Lemma readBMS_cons (name cmd : string) (rest : list (string * string)) (st : T) :
  readBMS char ((name, cmd) :: rest) st =
  let '(_, st1, log1) := poll char name cmd st in
  let '(b, st2, log2) := readBMS char rest st1 in
  (b, st2, log1 ++ log2).
Proof. reflexivity. Qed.

Lemma readBMS_app (order1 order2 : list (string * string)) (st : T) :
  readBMS char (order1 ++ order2) st =
  let '(_, st1, log1) := readBMS char order1 st in
  let '(b, st2, log2) := readBMS char order2 st1 in
  (b, st2, log1 ++ log2).
Proof.
  revert st. induction order1 as [|[name cmd] order1 IH]; intros st.
  - simpl. destruct (readBMS char order2 st) as [[b st2] log2]. reflexivity.
  - rewrite <- app_comm_cons, !readBMS_cons.
    destruct (poll char name cmd st) as [[u st1] log1].
    rewrite IH.
    destruct (readBMS char order1 st1) as [[u' st2] log2].
    destruct (readBMS char order2 st2) as [[b st3] log3].
    now rewrite app_assoc.
Qed.

(** A round of the loop issues [EnableNotifications(nil)] only after
    its response window. *)
Lemma poll_first_window (name cmd : string) (st : T) (rest : list Event) :
  first_window_subscribed rest = true ->
  first_window_subscribed (snd (poll char name cmd st) ++ rest) = true.
Proof.
  intros Hrest. unfold poll.
  destruct (DecodeString cmd) as [commandBytes|]; [|exact Hrest].
  unfold mbind, IO_bind, EnableNotifications, WriteWithoutResponse, Sleep,
    Printf, mret, IO_ret.
  destruct (enableNotifications char (notificationHandler <$> Some name) st)
    as [st1 [e1|]]; [exact Hrest|].
  destruct (writeWithoutResponse char commandBytes st1) as [st2 [e2|]];
    [exact Hrest|].
  destruct (enableNotifications char (notificationHandler <$> None) (sleep char st2))
    as [st3 [e3|]]; reflexivity.
Qed.

Lemma readBMS_first_window (order : list (string * string)) (st : T) :
  first_window_subscribed (snd (readBMS char order st)) = true.
Proof.
  revert st. induction order as [|[name cmd] order IH]; intros st;
    [reflexivity|].
  rewrite readBMS_cons.
  pose proof (poll_first_window name cmd st) as Hp.
  destruct (poll char name cmd st) as [[u st1] log1].
  specialize (IH st1).
  destruct (readBMS char order st1) as [[b st2] log2].
  simpl in *. now apply Hp.
Qed.

(** The round of a command whose write fails. *)
Lemma poll_write_failure (name cmd : string) (commandBytes : list byte)
    (st1 st2 st3 : T) (e : string) :
  DecodeString cmd = Some commandBytes ->
  enableNotifications char (Some (notificationHandler name)) st1 = (st2, None) ->
  writeWithoutResponse char commandBytes st2 = (st3, Some e) ->
  poll char name cmd st1 =
  (tt, st3,
   [ EvEnableNotifications (Some name) None;
     EvWriteWithoutResponse commandBytes (Some e);
     EvPrintf "Failed to send command %s: %v" name ]).
Proof.
  intros Hd He Hw. unfold poll. rewrite Hd.
  unfold mbind, IO_bind, EnableNotifications, WriteWithoutResponse, Printf.
  simpl fmap. rewrite He, Hw. reflexivity.
Qed.

(** C10, as the code has it.  When [WriteWithoutResponse] fails for a
    command, its round consists of the subscription, the failed write
    and the report: no [EnableNotifications(nil)].  The loop goes on
    with the next command, and no [EnableNotifications(nil)] is issued
    before the next response window begins. *)
Theorem readBMS_write_failure (order1 order2 : list (string * string))
    (name cmd : string) (commandBytes : list byte)
    (st st1 st2 st3 : T) (log1 : list Event) (e : string) :
  DecodeString cmd = Some commandBytes ->
  readBMS char order1 st = (tt, st1, log1) ->
  enableNotifications char (Some (notificationHandler name)) st1 = (st2, None) ->
  writeWithoutResponse char commandBytes st2 = (st3, Some e) ->
  exists (st' : T) (log2 : list Event),
    readBMS char order2 st3 = (tt, st', log2) /\
    readBMS char (order1 ++ (name, cmd) :: order2) st =
      (tt, st',
       log1 ++
       [ EvEnableNotifications (Some name) None;
         EvWriteWithoutResponse commandBytes (Some e);
         EvPrintf "Failed to send command %s: %v" name ] ++ log2) /\
    first_window_subscribed log2 = true.
Proof.
  intros Hd H1 He Hw.
  pose proof (readBMS_first_window order2 st3) as Hfw.
  destruct (readBMS char order2 st3) as [[[] st'] log2] eqn:H2.
  exists st', log2. split; [reflexivity|]. split; [|exact Hfw].
  rewrite readBMS_app, H1, readBMS_cons.
  rewrite (poll_write_failure name cmd commandBytes st1 st2 st3 e Hd He Hw).
  now rewrite H2.
Qed.
End SequencerProperties.

Lemma readBMS_write_failure_witness :
  exists (st' : list error) (log2 : list Event),
    readBMS scripted catalog_order first_write_fails =
    (tt, st',
     [] ++
     [ EvEnableNotifications (Some "GET_VERSION"%string) None;
       EvWriteWithoutResponse
         [x00; x00; x04; x01; x16; x55; xaa; x1a] (Some "write failed"%string);
       EvPrintf "Failed to send command %s: %v" "GET_VERSION" ] ++ log2) /\
    first_window_subscribed log2 = true.
Proof.
  destruct (readBMS_write_failure scripted []
              [ ("GET_BATTERY_INFO", "000004011355AA17");
                ("SERIAL_NUMBER", "000004011055AA14") ]%string
              "GET_VERSION" "000004011655AA1A"
              [x00; x00; x04; x01; x16; x55; xaa; x1a]
              first_write_fails first_write_fails
              [Some "write failed"%string] [] [] "write failed")
    as (st' & log2 & _ & H & Hfw); try reflexivity.
  exists st', log2. split; [exact H|exact Hfw].
Defined.

(** C10 as it is stated fails.  With the catalog polled in the order
    GET_VERSION, GET_BATTERY_INFO, SERIAL_NUMBER and a transport on which
    only the write of GET_VERSION fails, [EnableNotifications(nil)] is
    called at the end of the round of GET_BATTERY_INFO: the response
    window of SERIAL_NUMBER comes after that call, so the subscription
    left open by GET_VERSION does not last through it. *)
Lemma readBMS_later_window_unsubscribed :
  pqCommands = list_to_map catalog_order /\
  readBMS scripted catalog_order first_write_fails =
    (tt, [],
     EvEnableNotifications (Some "GET_VERSION"%string) None ::
     EvWriteWithoutResponse [x00; x00; x04; x01; x16; x55; xaa; x1a]
       (Some "write failed"%string) ::
     log_after_failed_write) /\
  first_window_subscribed log_after_failed_write = true /\
  every_window_subscribed log_after_failed_write = false.
Proof. repeat split; vm_compute; reflexivity. Qed.

(** * Further properties of the integer readers *)

(** ** reverseBytes *)

Lemma reverse_fill (n : nat) (l : list byte) :
  forall (off : nat) (acc : list byte),
    length acc = n -> (off + length l <= n)%nat ->
    forall j : nat, (j < n)%nat ->
      foldl (fun reversed iv => <[ (n - fst iv - 1)%nat := snd iv ]> reversed)
            acc (imap (fun i x => ((off + i)%nat, x)) l) !! j =
      if decide (n - off - length l <= j < n - off)%nat
      then l !! (n - off - 1 - j)%nat
      else acc !! j.
Proof.
  induction l as [|x l IH]; intros off acc Hacc Hoff j Hj.
  - simpl. destruct (decide _) as [H|H]; [lia|reflexivity].
  - simpl length in Hoff. rewrite imap_cons. simpl foldl.
    rewrite (imap_ext _ (fun i y => ((S off + i)%nat, y))) by (intros; simpl; f_equal; lia).
    rewrite IH; [|now rewrite length_insert|lia|exact Hj].
    simpl length.
    destruct (decide (n - S off - length l <= j < n - S off)%nat) as [H1|H1];
      destruct (decide (n - off - S (length l) <= j < n - off)%nat) as [H2|H2];
      try lia.
    + replace (n - off - 1 - j)%nat with (S (n - S off - 1 - j)) by lia.
      reflexivity.
    + replace (off + 0)%nat with off by lia.
      assert (j = n - off - 1)%nat as -> by lia.
      rewrite list_lookup_insert_eq by lia.
      now replace (n - off - 1 - (n - off - 1))%nat with 0%nat by lia.
    + replace (off + 0)%nat with off by lia.
      rewrite list_lookup_insert_ne by lia. reflexivity.
Qed.

Lemma reverse_fill_length (n : nat) (l : list (nat * byte)) (acc : list byte) :
  length (foldl (fun reversed iv => <[ (n - fst iv - 1)%nat := snd iv ]> reversed)
                acc l) = length acc.
Proof.
  revert acc. induction l as [|iv l IH]; intros acc; [reflexivity|].
  simpl. now rewrite IH, length_insert.
Qed.

Lemma reverseBytes_lookup (data : list byte) (j : nat) :
  (j < length data)%nat ->
  reverseBytes data !! j = data !! (length data - 1 - j)%nat.
Proof.
  intros Hj. unfold reverseBytes.
  rewrite (reverse_fill (length data) data 0 (replicate (length data) x00));
    [|apply length_replicate|lia|exact Hj].
  destruct (decide _) as [_|H]; [|lia]. f_equal. lia.
Qed.

Lemma reverseBytes_length (data : list byte) :
  length (reverseBytes data) = length data.
Proof. unfold reverseBytes. now rewrite reverse_fill_length, length_replicate. Qed.

Lemma reverseBytes_is_rev (data : list byte) : reverseBytes data = rev data.
Proof.
  apply list_eq. intros j.
  destruct (decide (j < length data)%nat) as [Hj|Hj].
  - rewrite reverseBytes_lookup by exact Hj.
    rewrite rev_alt. change (rev_append data []) with (reverse data).
    rewrite reverse_lookup by lia. f_equal. lia.
  - rewrite !lookup_ge_None_2; [reflexivity| |].
    + rewrite length_rev. lia.
    + rewrite reverseBytes_length. lia.
Qed.

(** X1. [reverseBytes] returns a new slice of the same length with the
    bytes in the opposite order, and reversing twice gives the input
    back. *)
Theorem reverseBytes_rev (data : list byte) :
  reverseBytes data = rev data /\
  length (reverseBytes data) = length data /\
  reverseBytes (reverseBytes data) = data.
Proof.
  split; [apply reverseBytes_is_rev|].
  split; [apply reverseBytes_length|].
  rewrite !reverseBytes_is_rev. apply rev_involutive.
Qed.

(** ** binaryToInt beyond seven bytes *)

Lemma lor_shiftl_8_any (x y : Z) :
  0 <= y < 256 -> Z.lor (Z.shiftl x 8) y = 256 * x + y.
Proof.
  intros Hy.
  assert (Hland : Z.land (Z.shiftl x 8) y = 0).
  { apply Z.bits_inj'. intros n Hn. rewrite Z.land_spec, Z.bits_0.
    destruct (Z.lt_ge_cases n 8) as [Hlt|Hge].
    - now rewrite Z.shiftl_spec_low.
    - destruct (Z.eq_dec y 0) as [->|Hy0];
        [rewrite Z.bits_0; apply andb_false_r|].
      rewrite (Z.bits_above_log2 y n); [apply andb_false_r|lia|].
      apply Z.lt_le_trans with 8; [|lia]. apply Z.log2_lt_pow2; lia. }
  rewrite <- Z.lxor_lor, <- Z.add_nocarry_lxor by assumption.
  rewrite Z.shiftl_mul_pow2 by lia. lia.
Qed.

Lemma wrap64_range (z : Z) : - 2 ^ 63 <= wrap64 z < 2 ^ 63.
Proof.
  unfold wrap64.
  pose proof (Z.mod_pos_bound (z + 2 ^ 63) (2 ^ 64) ltac:(reflexivity)) as H.
  assert (E : 2 ^ 64 = 2 * 2 ^ 63) by reflexivity. lia.
Qed.

Lemma wrap64_mod (z : Z) : wrap64 z mod 2 ^ 64 = z mod 2 ^ 64.
Proof.
  unfold wrap64. rewrite Zminus_mod_idemp_l. f_equal. lia.
Qed.

Lemma wrap64_eq (a b : Z) : a mod 2 ^ 64 = b mod 2 ^ 64 -> wrap64 a = wrap64 b.
Proof.
  intros H. unfold wrap64. f_equal.
  rewrite (Zplus_mod a), (Zplus_mod b), H. reflexivity.
Qed.

Lemma be_value_snoc (s : list byte) (b : byte) :
  be_value (s ++ [b]) = 256 * be_value s + byte_val b.
Proof. unfold be_value. now rewrite foldl_app. Qed.

Lemma be_value_range (s : list byte) :
  0 <= be_value s < 2 ^ (8 * Z.of_nat (length s)).
Proof.
  induction s as [|b s IH] using rev_ind; [split; [reflexivity|reflexivity]|].
  rewrite be_value_snoc, length_app. simpl length.
  pose proof (byte_val_range b) as Hb.
  replace (8 * Z.of_nat (length s + 1)) with (8 * Z.of_nat (length s) + 8) by lia.
  rewrite Z.pow_add_r by lia. change (2 ^ 8) with 256. lia.
Qed.

Lemma be_value_app (s1 s2 : list byte) :
  be_value (s1 ++ s2) =
  be_value s1 * 2 ^ (8 * Z.of_nat (length s2)) + be_value s2.
Proof.
  induction s2 as [|b s2 IH] using rev_ind.
  - rewrite app_nil_r. change (be_value []) with 0. simpl length.
    change (2 ^ (8 * Z.of_nat 0)) with 1. lia.
  - rewrite app_assoc, !be_value_snoc, IH, length_app. simpl length.
    replace (8 * Z.of_nat (length s2 + 1)) with (8 * Z.of_nat (length s2) + 8) by lia.
    rewrite Z.pow_add_r by lia. change (2 ^ 8) with 256. lia.
Qed.

Lemma binaryToInt_int64 (s : list byte) : - 2 ^ 63 <= binaryToInt s < 2 ^ 63.
Proof.
  destruct s as [|b s _] using rev_ind.
  - change (binaryToInt []) with 0.
    assert (0 < 2 ^ 63) by reflexivity. lia.
  - rewrite binaryToInt_snoc. apply wrap64_range.
Qed.

Lemma binaryToInt_mod (s : list byte) :
  binaryToInt s mod 2 ^ 64 = be_value s mod 2 ^ 64.
Proof.
  induction s as [|b s IH] using rev_ind; [reflexivity|].
  rewrite binaryToInt_snoc, be_value_snoc, wrap64_mod.
  rewrite lor_shiftl_8_any by apply byte_val_range.
  rewrite (Zplus_mod (256 * binaryToInt s)), (Zmult_mod 256 (binaryToInt s)), IH.
  rewrite <- Zmult_mod, <- Zplus_mod. reflexivity.
Qed.

Lemma int64_mod_inj (a b : Z) :
  - 2 ^ 63 <= a < 2 ^ 63 -> - 2 ^ 63 <= b < 2 ^ 63 ->
  a mod 2 ^ 64 = b mod 2 ^ 64 -> a = b.
Proof.
  intros Ha Hb H. rewrite <- (wrap64_small a), <- (wrap64_small b) by assumption.
  now apply wrap64_eq.
Qed.

Lemma shifted_out (x y : Z) (n : nat) :
  (8 <= n)%nat -> (x * 2 ^ (8 * Z.of_nat n) + y) mod 2 ^ 64 = y mod 2 ^ 64.
Proof.
  intros Hn.
  replace (8 * Z.of_nat n) with ((8 * Z.of_nat n - 64) + 64) by lia.
  rewrite Z.pow_add_r by lia.
  replace (x * (2 ^ (8 * Z.of_nat n - 64) * 2 ^ 64) + y)
    with (y + (x * 2 ^ (8 * Z.of_nat n - 64)) * 2 ^ 64) by lia.
  apply Z_mod_plus_full.
Qed.

(** X2. [binaryToInt] is the big-endian value of the bytes, reduced to
    the signed 64-bit range, whatever their number. *)
Theorem binaryToInt_be_value (s : list byte) :
  binaryToInt s = wrap64 (be_value s).
Proof.
  apply int64_mod_inj;
    [apply binaryToInt_int64 | apply wrap64_range |].
  rewrite wrap64_mod. apply binaryToInt_mod.
Qed.

(** X3. Reading a concatenation: the value of the first part is shifted
    left by eight bits for every byte of the second, in [int64]. *)
Theorem binaryToInt_app (s1 s2 : list byte) :
  binaryToInt (s1 ++ s2) =
  wrap64 (binaryToInt s1 * 2 ^ (8 * Z.of_nat (length s2)) + binaryToInt s2).
Proof.
  apply int64_mod_inj;
    [apply binaryToInt_int64 | apply wrap64_range |].
  rewrite wrap64_mod, binaryToInt_mod, be_value_app.
  rewrite (Zplus_mod (binaryToInt s1 * _)), (Zmult_mod (binaryToInt s1)),
    !binaryToInt_mod, <- Zmult_mod, <- Zplus_mod.
  reflexivity.
Qed.

(** X4. Leading zero bytes do not change the value. *)
Theorem binaryToInt_leading_zeros (n : nat) (s : list byte) :
  binaryToInt (replicate n x00 ++ s) = binaryToInt s.
Proof.
  induction n as [|n IH]; [reflexivity|].
  rewrite <- IH. reflexivity.
Qed.

(** X5. Only the last eight bytes count: what comes before them is
    shifted out of the 64 bits. *)
Theorem binaryToInt_last_8 (s1 s2 : list byte) :
  (8 <= length s2)%nat -> binaryToInt (s1 ++ s2) = binaryToInt s2.
Proof.
  intros Hlen. apply int64_mod_inj; try apply binaryToInt_int64.
  rewrite !binaryToInt_mod, be_value_app. now apply shifted_out.
Qed.

Lemma binaryToInt_last_8_witness :
  binaryToInt ([x12; x34] ++ replicate 8 x01) = binaryToInt (replicate 8 x01).
Proof. apply binaryToInt_last_8. vm_compute. lia. Defined.

(** X6. Eight bytes whose first has its high bit set read as a negative
    number. *)
Theorem binaryToInt_8_negative (b : byte) (s : list byte) :
  length s = 7%nat -> 128 <= byte_val b -> binaryToInt (b :: s) < 0.
Proof.
  intros Hlen Hb.
  pose proof (binaryToInt_int64 (b :: s)) as Hr.
  pose proof (binaryToInt_mod (b :: s)) as Hm.
  change (b :: s) with ([b] ++ s) in Hm at 2. rewrite be_value_app, Hlen in Hm.
  change (be_value [b]) with (256 * 0 + byte_val b) in Hm.
  pose proof (be_value_range s) as Hs. rewrite Hlen in Hs.
  pose proof (byte_val_range b) as Hb'.
  change (2 ^ (8 * Z.of_nat 7)) with 72057594037927936 in *.
  change (2 ^ 63) with 9223372036854775808 in *.
  change (2 ^ 64) with 18446744073709551616 in *.
  destruct (Z.lt_ge_cases (binaryToInt (b :: s)) 0) as [Hneg|Hpos]; [exact Hneg|].
  rewrite !Z.mod_small in Hm by lia. lia.
Qed.

Lemma binaryToInt_8_negative_witness : binaryToInt (x80 :: replicate 7 x00) < 0.
Proof. apply binaryToInt_8_negative; [reflexivity | vm_compute; discriminate]. Defined.

(** ** binaryToIntBigEndian *)

(** X7. [binaryToIntBigEndian] ends the process on every slice whose
    length is not 4; on four bytes it returns what [binaryToInt] reads from
    the bytes in the opposite order, that is the little-endian value of the
    slice. *)
Theorem binaryToIntBigEndian_spec (data : list byte) :
  binaryToIntBigEndian data =
  if decide (length data = 4%nat)
  then Ok (binaryToInt (reverseBytes data)) else Err Fatal.
Proof.
  destruct (decide (length data = 4%nat)) as [H4|H4].
  - rewrite (binaryToIntBigEndian_rev data H4). do 2 f_equal.
    symmetry. apply reverseBytes_is_rev.
  - unfold binaryToIntBigEndian.
    destruct (length data =? 4)%nat eqn:E; [|reflexivity].
    apply Nat.eqb_eq in E. contradiction.
Qed.

(** * Further properties of the frame decoder *)

(** X8. [parseBatteryInfo] returns a record exactly when the length of
    the buffer is at least 69 and its capacity at least 104; in every other
    case the run-time panics.  The [log.Fatalf] of [binaryToIntBigEndian]
    is never reached. *)
Theorem parseBatteryInfo_Ok_iff (data : Slice) :
  ((exists b : BatteryInfo, parseBatteryInfo data = Ok b) <->
   (69 <= len data /\ 104 <= cap data)%nat) /\
  (parseBatteryInfo data = Err Panic <->
   (len data < 69 \/ cap data < 104)%nat) /\
  parseBatteryInfo data <> Err Fatal.
Proof.
  destruct (le_lt_dec 69 (len data)) as [Hl|Hl];
    [destruct (le_lt_dec 104 (cap data)) as [Hc|Hc]|].
  - rewrite (parseBatteryInfo_decoded data Hl Hc). repeat split.
    + exact Hl.
    + exact Hc.
    + intros _. eauto.
    + discriminate.
    + lia.
    + discriminate.
  - rewrite parseBatteryInfo_panics by lia. repeat split.
    + destruct H as [b Hb]. discriminate.
    + destruct H as [b Hb]. discriminate.
    + lia.
    + intros _. lia.
    + discriminate.
  - rewrite parseBatteryInfo_panics by lia. repeat split.
    + destruct H as [b Hb]. discriminate.
    + destruct H as [b Hb]. discriminate.
    + lia.
    + intros _. lia.
    + discriminate.
Qed.

(** X9. The result depends only on the bytes of the backing array at
    offsets 8 to 55, 62 to 65, 68 to 71 and 76 to 103, and on whether the
    length reaches 69: the header, bytes 56 to 61, 66, 67, 72 to 75 and
    everything from offset 104 on are never read. *)
Theorem parseBatteryInfo_used_offsets (d1 d2 : Slice) :
  (forall i : nat, used_offset i = true -> backing d1 !! i = backing d2 !! i) ->
  (69 <= len d1 <-> 69 <= len d2)%nat ->
  parseBatteryInfo d1 = parseBatteryInfo d2.
Proof.
  intros H Hlen.
  pose proof (H 103%nat eq_refl) as H103.
  pose proof (length_backing d1) as HB1. pose proof (length_backing d2) as HB2.
  destruct (le_lt_dec 69 (len d1)) as [L1|L1].
  - destruct (backing d1 !! 103%nat) as [x|] eqn:E1.
    + symmetry in H103.
      apply lookup_lt_Some in E1, H103.
      rewrite !parseBatteryInfo_decoded by lia.
      f_equal. now apply decoded_ext.
    + symmetry in H103. apply lookup_ge_None in E1, H103.
      rewrite !parseBatteryInfo_panics by lia. reflexivity.
  - rewrite !parseBatteryInfo_panics by lia. reflexivity.
Qed.

Lemma parseBatteryInfo_used_offsets_witness :
  parseBatteryInfo (mkSlice (<[0%nat := xff]> charging_frame) []) =
  parseBatteryInfo (mkSlice charging_frame []).
Proof.
  apply parseBatteryInfo_used_offsets.
  - intros i Hi. destruct i as [|i]; [discriminate Hi|]. reflexivity.
  - split; intros _; vm_compute; lia.
Defined.

(** X10. Whatever follows the first 104 bytes of the backing array is
    ignored: cutting the buffer down to them does not change the result. *)
Theorem parseBatteryInfo_take_104 (data : Slice) :
  parseBatteryInfo
    (mkSlice (take 104 (elems data)) (take (104 - len data) (spare data))) =
  parseBatteryInfo data.
Proof.
  set (cut := mkSlice (take 104 (elems data)) (take (104 - len data) (spare data))).
  assert (Hb : backing cut = take 104 (backing data)).
  { unfold backing, cut, len. cbn [elems spare]. now rewrite take_app. }
  assert (Hl : len cut = (104 `min` len data)%nat).
  { unfold cut, len. cbn [elems]. now rewrite length_take. }
  assert (Hc : cap cut = (104 `min` cap data)%nat).
  { rewrite <- !length_backing, Hb. now rewrite length_take. }
  destruct (le_lt_dec 69 (len data)) as [L|L];
    [destruct (le_lt_dec 104 (cap data)) as [C|C]|].
  - rewrite !parseBatteryInfo_decoded by lia. f_equal. rewrite Hb.
    apply decoded_ext. intros i Hi. apply lookup_take_lt.
    now apply used_offset_lt.
  - rewrite !parseBatteryInfo_panics by lia. reflexivity.
  - rewrite !parseBatteryInfo_panics by lia. reflexivity.
Qed.

(** X11. No integer field of a decoded record is negative: the two
    voltages and the four 4-byte counters lie below [2 ^ 32], the
    temperatures, the battery state and the state of charge below
    [2 ^ 16]. *)
Theorem parseBatteryInfo_int_ranges (data spare : list byte) :
  (104 <= length data)%nat ->
  exists b : BatteryInfo,
    parseBatteryInfo (mkSlice data spare) = Ok b /\
    0 <= PackVoltage b < 2 ^ 32 /\ 0 <= Voltage b < 2 ^ 32 /\
    0 <= CellTemperature b < 2 ^ 16 /\ 0 <= MosfetTemperature b < 2 ^ 16 /\
    0 <= EquilibriumState b < 2 ^ 32 /\
    0 <= BatteryState b < 2 ^ 16 /\ 0 <= SOC b < 2 ^ 16 /\
    0 <= SOH b < 2 ^ 32 /\
    0 <= DischargesCount b < 2 ^ 32 /\ 0 <= DischargesAHCount b < 2 ^ 32.
Proof.
  intros Hlen. exists (decoded data).
  split; [apply parseBatteryInfo_frame, Hlen|].
  assert (Hrev : forall lo, (lo + 4 <= length data)%nat ->
            0 <= binaryToInt (rev (field data lo 4)) < 2 ^ 32).
  { intros lo Hlo.
    pose proof (binaryToInt_range (rev (field data lo 4))) as Hr.
    rewrite length_rev, field_length in Hr by lia. apply Hr. lia. }
  unfold decoded; cbn [PackVoltage Voltage CellTemperature MosfetTemperature
    EquilibriumState BatteryState SOC SOH DischargesCount DischargesAHCount].
  repeat split;
    try (apply Hrev; lia);
    try (apply (int_field_range data _ 4); lia);
    try (apply (int_field_range data _ 2); lia).
Qed.

Lemma parseBatteryInfo_int_ranges_witness :
  exists b : BatteryInfo,
    parseBatteryInfo (mkSlice charging_frame []) = Ok b /\
    0 <= PackVoltage b < 2 ^ 32 /\ 0 <= Voltage b < 2 ^ 32 /\
    0 <= CellTemperature b < 2 ^ 16 /\ 0 <= MosfetTemperature b < 2 ^ 16 /\
    0 <= EquilibriumState b < 2 ^ 32 /\
    0 <= BatteryState b < 2 ^ 16 /\ 0 <= SOC b < 2 ^ 16 /\
    0 <= SOH b < 2 ^ 32 /\
    0 <= DischargesCount b < 2 ^ 32 /\ 0 <= DischargesAHCount b < 2 ^ 32.
Proof. apply (parseBatteryInfo_int_ranges charging_frame []). vm_compute. lia. Defined.

(** ** The derived status strings *)

Lemma hex_digit_2 (b : byte) :
  Ascii.eqb (hex_digit (Z.land (byte_val b) 15)) "2" =
  (Z.land (byte_val b) 15 =? 2).
Proof. destruct b; reflexivity. Qed.

(** X12. [HeatStatus] is "Self-heating is on" exactly when the low four
    bits of byte 71 are 2, and "Self-heating is off" otherwise. *)
Theorem parseBatteryInfo_HeatStatus (data spare : list byte) :
  (104 <= length data)%nat ->
  exists b : BatteryInfo,
    parseBatteryInfo (mkSlice data spare) = Ok b /\
    HeatStatus b =
      (if Z.land (byte_val (byte_at data 71)) 15 =? 2
       then "Self-heating is on"%string else "Self-heating is off"%string).
Proof.
  intros Hlen. exists (decoded data).
  split; [apply parseBatteryInfo_frame, Hlen|].
  unfold decoded; cbn [HeatStatus]. now rewrite hex_digit_2.
Qed.

Lemma parseBatteryInfo_HeatStatus_witness :
  exists b : BatteryInfo,
    parseBatteryInfo (mkSlice charging_frame []) = Ok b /\
    HeatStatus b = "Self-heating is off"%string.
Proof. apply (parseBatteryInfo_HeatStatus charging_frame []). vm_compute. lia. Defined.

(** X13. [CellStatus] reports a fault exactly when byte 80 or byte 81 is
    not zero; bytes 82 and 83 of the failure state play no part. *)
Theorem parseBatteryInfo_CellStatus (data spare : list byte) :
  (104 <= length data)%nat ->
  exists b : BatteryInfo,
    parseBatteryInfo (mkSlice data spare) = Ok b /\
    FailureState b = take 4 (drop 80 data) /\
    (byte_val (byte_at data 80) <> 0 \/ byte_val (byte_at data 81) <> 0 ->
     CellStatus b = "Fault alert! There may be a problem with cell."%string) /\
    (byte_val (byte_at data 80) = 0 /\ byte_val (byte_at data 81) = 0 ->
     CellStatus b = "Battery is in optimal working condition."%string).
Proof.
  intros Hlen. exists (decoded data).
  split; [apply parseBatteryInfo_frame, Hlen|].
  unfold decoded; cbn [CellStatus FailureState].
  pose proof (byte_val_range (byte_at data 80)) as H0.
  pose proof (byte_val_range (byte_at data 81)) as H1.
  split; [reflexivity|]. split.
  - intros H.
    assert (E : ((0 <? byte_val (byte_at data 80)) ||
                 (0 <? byte_val (byte_at data 81)))%bool = true).
    { apply orb_true_iff. destruct H as [H|H]; [left|right]; apply Z.ltb_lt; lia. }
    now rewrite E.
  - intros [E0 E1]. now rewrite E0, E1.
Qed.

Lemma parseBatteryInfo_CellStatus_witness :
  exists b : BatteryInfo,
    parseBatteryInfo (mkSlice charging_frame []) = Ok b /\
    CellStatus b = "Battery is in optimal working condition."%string.
Proof.
  destruct (parseBatteryInfo_CellStatus charging_frame []) as (b & Hb & _ & _ & H);
    [vm_compute; lia|].
  exists b. split; [exact Hb|]. apply H. split; reflexivity.
Defined.

(** X14. [BalanceStatus] reports balancing exactly when one of the bytes
    84 to 87 is not zero. *)
Theorem parseBatteryInfo_BalanceStatus (data spare : list byte) :
  (104 <= length data)%nat ->
  exists b : BatteryInfo,
    parseBatteryInfo (mkSlice data spare) = Ok b /\
    (take 4 (drop 84 data) <> replicate 4 x00 ->
     BalanceStatus b =
       "Battery cells are being balanced for better performance."%string) /\
    (take 4 (drop 84 data) = replicate 4 x00 ->
     BalanceStatus b = "All cells are well-balanced."%string).
Proof.
  intros Hlen. exists (decoded data).
  split; [apply parseBatteryInfo_frame, Hlen|].
  unfold decoded; cbn [BalanceStatus].
  split.
  - intros Hne.
    assert (E : 0 < to_int (binaryToInt (field data 84 4))).
    { rewrite field_4 by lia.
      pose proof (byte_val_range (byte_at data 84)) as H0.
      pose proof (byte_val_range (byte_at data (84 + 1))) as H1.
      pose proof (byte_val_range (byte_at data (84 + 2))) as H2.
      pose proof (byte_val_range (byte_at data (84 + 3))) as H3.
      assert (E8 : 2 ^ 8 = 256) by reflexivity.
      assert (E16 : 2 ^ 16 = 65536) by reflexivity.
      assert (E24 : 2 ^ 24 = 16777216) by reflexivity.
      destruct (Z.eq_dec (byte_val (byte_at data 84)) 0) as [Z0|]; [|lia].
      destruct (Z.eq_dec (byte_val (byte_at data (84 + 1))) 0) as [Z1|]; [|lia].
      destruct (Z.eq_dec (byte_val (byte_at data (84 + 2))) 0) as [Z2|]; [|lia].
      destruct (Z.eq_dec (byte_val (byte_at data (84 + 3))) 0) as [Z3|]; [|lia].
      exfalso. apply Hne. rewrite take_4_drop by lia.
      assert (Hz : forall x : byte, byte_val x = 0 -> x = x00)
        by (intros x; destruct x; (reflexivity || discriminate)).
      now rewrite (Hz _ Z0), (Hz _ Z1), (Hz _ Z2), (Hz _ Z3). }
    apply Z.ltb_lt in E. now rewrite E.
  - intros E. fold (field data 84 4) in E. rewrite E. reflexivity.
Qed.

Lemma parseBatteryInfo_BalanceStatus_witness :
  exists b : BatteryInfo,
    parseBatteryInfo (mkSlice charging_frame []) = Ok b /\
    BalanceStatus b = "All cells are well-balanced."%string.
Proof.
  destruct (parseBatteryInfo_BalanceStatus charging_frame []) as (b & Hb & _ & H);
    [vm_compute; lia|].
  exists b. split; [exact Hb|]. apply H. reflexivity.
Defined.

Lemma current_field_range (data : list byte) : 0 <= current_field data < 2 ^ 32.
Proof.
  unfold current_field.
  pose proof (byte_val_range (byte_at data 48)).
  pose proof (byte_val_range (byte_at data 49)).
  pose proof (byte_val_range (byte_at data 50)).
  pose proof (byte_val_range (byte_at data 51)).
  assert (E8 : 2 ^ 8 = 256) by reflexivity.
  assert (E16 : 2 ^ 16 = 65536) by reflexivity.
  assert (E24 : 2 ^ 24 = 16777216) by reflexivity.
  assert (E32 : 2 ^ 32 = 4294967296) by reflexivity.
  lia.
Qed.

Lemma decoded_Current (data : list byte) :
  (104 <= length data)%nat ->
  Current (decoded data) = fdiv (of_int (current_field data)) (of_int 1000).
Proof.
  intros Hlen. unfold decoded; cbn [Current].
  now rewrite (field_4 data 48) by lia.
Qed.

Lemma Current_sign (c : Z) :
  0 <= c < 2 ^ 32 ->
  feqb (fdiv (of_int c) (of_int 1000)) fzero = (c =? 0) /\
  (c <> 0 -> fltb fzero (fdiv (of_int c) (of_int 1000)) = true).
Proof.
  intros Hc. destruct (Z.eq_dec c 0) as [->|Hne].
  - split; [reflexivity|congruence].
  - assert (H63 : 2 ^ 32 < 2 ^ 63) by reflexivity.
    assert (H : pos_fin (53 + 53 + 107) (fdiv (of_int c) (of_int 1000))).
    { apply fdiv_pos; try lia; apply of_int_pos; [lia|split; reflexivity]. }
    destruct (pos_fin_sign _ _ H) as (H1 & H2 & _).
    split; [|intros _; exact H1].
    rewrite H2. symmetry. now apply Z.eqb_neq.
Qed.

(** X15. The status of a decoded frame, read off its bytes: "Full Charge"
    when the state of charge is at least 100 or the battery state is 4;
    otherwise "Standby" when the four bytes of the current field are zero
    and "Charging" when they are not.  No frame has another status. *)
Theorem parseBatteryInfo_BatteryStatus (data spare : list byte) :
  (104 <= length data)%nat ->
  exists b : BatteryInfo,
    parseBatteryInfo (mkSlice data spare) = Ok b /\
    BatteryStatus b =
      if ((100 <=? SOC b) || (BatteryState b =? 4))%bool then "Full Charge"%string
      else if current_field data =? 0 then "Standby"%string
      else "Charging"%string.
Proof.
  intros Hlen. exists (decoded data).
  split; [apply parseBatteryInfo_frame, Hlen|].
  pose proof (decoded_Current data Hlen) as HC.
  destruct (Current_sign (current_field data) (current_field_range data))
    as [Heq Hpos].
  unfold decoded in *; cbn [Current BatteryStatus SOC BatteryState] in *.
  rewrite HC, Heq.
  destruct ((100 <=? _) || _)%bool; [reflexivity|].
  destruct (current_field data =? 0) eqn:E; [reflexivity|].
  apply Z.eqb_neq in E. now rewrite (Hpos E).
Qed.

Lemma parseBatteryInfo_BatteryStatus_witness :
  exists b : BatteryInfo,
    parseBatteryInfo (mkSlice discharging_frame []) = Ok b /\
    BatteryStatus b =
      if ((100 <=? SOC b) || (BatteryState b =? 4))%bool then "Full Charge"%string
      else if current_field discharging_frame =? 0 then "Standby"%string
      else "Charging"%string.
Proof. apply (parseBatteryInfo_BatteryStatus discharging_frame []). vm_compute. lia. Defined.

Lemma decoded_cell_lookup (data : list byte) (k : Z) :
  (104 <= length data)%nat ->
  BatteryPack (decoded data) !! k =
  if decide (1 <= k <= 16 /\ cell_raw data k <> 0)
  then Some (fdiv (of_int (cell_raw data k)) (of_int 1000))
  else None.
Proof.
  intros Hlen. unfold decoded; cbn [BatteryPack]. unfold cell_map.
  destruct (cell_loop_spec (field data 16 32) 16
              ltac:(apply field_length; lia)
              (length (field data 16 32)) 0%nat ∅)
    as (pack & Hpack & Hlook); [lia|rewrite field_length by lia; lia|].
  change (2 * 0)%nat with 0%nat in Hpack. rewrite Hpack, Hlook.
  change (Z.of_nat 0) with 0. change (Z.of_nat 16) with 16.
  destruct (decide (0 < k <= 16 /\ _)) as [[Hk Hnz]|Hn];
    destruct (decide (1 <= k <= 16 /\ _)) as [[Hk' Hnz']|Hn'].
  - unfold field. now rewrite cell_raw_pair_value by lia.
  - exfalso. apply Hn'. split; [lia|].
    unfold field in Hnz. now rewrite cell_raw_pair_value in Hnz by lia.
  - exfalso. apply Hn. split; [lia|].
    unfold field. now rewrite cell_raw_pair_value by lia.
  - apply lookup_empty.
Qed.

Lemma cell_value_pos (data : list byte) (k : Z) :
  cell_raw data k <> 0 ->
  pos_fin (53 + 53 + 107) (fdiv (of_int (cell_raw data k)) (of_int 1000)).
Proof.
  intros Hnz. pose proof (cell_raw_range data k) as Hr.
  apply fdiv_pos; try lia; apply of_int_pos; [|split; reflexivity].
  assert (2 ^ 16 < 2 ^ 63) by reflexivity. lia.
Qed.

(** X16. The cell map in full: cell [k] is present exactly when [k] is
    between 1 and 16 and its pair of bytes is not zero, and then holds the
    raw value of the pair divided by 1000. *)
Theorem parseBatteryInfo_cell_lookup (data spare : list byte) :
  (104 <= length data)%nat ->
  exists b : BatteryInfo,
    parseBatteryInfo (mkSlice data spare) = Ok b /\
    forall k : Z,
      BatteryPack b !! k =
      if decide (1 <= k <= 16 /\ cell_raw data k <> 0)
      then Some (fdiv (of_int (cell_raw data k)) (of_int 1000))
      else None.
Proof.
  intros Hlen. exists (decoded data).
  split; [apply parseBatteryInfo_frame, Hlen|].
  intros k. now apply decoded_cell_lookup.
Qed.

Lemma parseBatteryInfo_cell_lookup_witness :
  exists b : BatteryInfo,
    parseBatteryInfo (mkSlice charging_frame []) = Ok b /\
    forall k : Z,
      BatteryPack b !! k =
      if decide (1 <= k <= 16 /\ cell_raw charging_frame k <> 0)
      then Some (fdiv (of_int (cell_raw charging_frame k)) (of_int 1000))
      else None.
Proof. apply (parseBatteryInfo_cell_lookup charging_frame []). vm_compute. lia. Defined.

(** X17. The float fields of a decoded record are never NaN nor
    infinite, and none is negative: [Current], [Watt], [RemainAh] and
    [FactoryAh] are finite and at least zero, and every cell voltage of
    the map is finite and above zero. *)
Theorem parseBatteryInfo_floats_finite (data spare : list byte) :
  (104 <= length data)%nat ->
  exists b : BatteryInfo,
    parseBatteryInfo (mkSlice data spare) = Ok b /\
    is_finite (Current b) = true /\ fleb fzero (Current b) = true /\
    is_finite (Watt b) = true /\ fleb fzero (Watt b) = true /\
    is_finite (RemainAh b) = true /\ fleb fzero (RemainAh b) = true /\
    is_finite (FactoryAh b) = true /\ fleb fzero (FactoryAh b) = true /\
    forall (k : Z) (v : spec_float),
      BatteryPack b !! k = Some v -> is_finite v = true /\ fltb fzero v = true.
Proof.
  intros Hlen. exists (decoded data).
  split; [apply parseBatteryInfo_frame, Hlen|].
  assert (HC : nonneg_fin 213 (Current (decoded data))).
  { unfold decoded; cbn [Current]. apply Current_nonneg.
    rewrite field_length; lia. }
  assert (HW : nonneg_fin 749 (Watt (decoded data))).
  { unfold decoded in *; cbn [Watt Current] in *. apply Watt_nonneg; [|exact HC].
    pose proof (binaryToInt_range (rev (field data 12 4))) as Hr.
    rewrite length_rev, field_length in Hr by lia. apply Hr. lia. }
  assert (HR : nonneg_fin 213 (RemainAh (decoded data))).
  { unfold decoded; cbn [RemainAh]. apply Ah_nonneg. rewrite field_length; lia. }
  assert (HF : nonneg_fin 213 (FactoryAh (decoded data))).
  { unfold decoded; cbn [FactoryAh]. apply Ah_nonneg. rewrite field_length; lia. }
  repeat split; eauto using nonneg_fin_is_finite;
    try (eapply nonneg_fin_fleb; eassumption).
  - rewrite decoded_cell_lookup in H by exact Hlen.
    destruct (decide _) as [[Hk Hnz]|]; [|discriminate].
    injection H as <-. apply (nonneg_fin_is_finite 213). right.
    now apply cell_value_pos.
  - rewrite decoded_cell_lookup in H by exact Hlen.
    destruct (decide _) as [[Hk Hnz]|]; [|discriminate].
    injection H as <-.
    now destruct (pos_fin_sign _ _ (cell_value_pos data k Hnz)) as (H1 & _).
Qed.

Lemma parseBatteryInfo_floats_finite_witness :
  exists b : BatteryInfo,
    parseBatteryInfo (mkSlice charging_frame []) = Ok b /\
    is_finite (Current b) = true /\ fleb fzero (Current b) = true /\
    is_finite (Watt b) = true /\ fleb fzero (Watt b) = true.
Proof.
  destruct (parseBatteryInfo_floats_finite charging_frame [])
    as (b & Hb & H1 & H2 & H3 & H4 & _); [vm_compute; lia|].
  exists b. auto.
Defined.

(** X18. A frame whose voltage field or whose current field is zero has
    zero watts; a zero current field also gives a zero current. *)
Theorem parseBatteryInfo_zero_watt (data spare : list byte) :
  (104 <= length data)%nat ->
  exists b : BatteryInfo,
    parseBatteryInfo (mkSlice data spare) = Ok b /\
    (current_field data = 0 -> Current b = fzero /\ Watt b = fzero) /\
    (voltage_field data = 0 -> Watt b = fzero).
Proof.
  intros Hlen.
  destruct (parseBatteryInfo_fields data spare Hlen) as (b & Hb & HV & _ & HC & HW).
  exists b. split; [exact Hb|].
  assert (Hnn : nonneg_fin 213 (Current b)).
  { rewrite HC. pose proof (current_field_range data) as Hr.
    assert (2 ^ 32 < 2 ^ 63) by reflexivity.
    apply (fdiv_nonneg 53 53); try lia.
    - apply of_int_nonneg. lia.
    - apply of_int_pos. split; reflexivity. }
  split.
  - intros Hz. rewrite Hz in HC. change (fdiv (of_int 0) (of_int 1000)) with fzero in HC.
    split; [exact HC|]. rewrite HW, HC.
    pose proof (binaryToIntBigEndian_range (take 4 (drop 12 data))
                  ltac:(rewrite length_take, length_drop; lia)) as (v & _ & Hv).
    assert (HVn : nonneg_fin 53 (of_int (Voltage b))).
    { apply of_int_nonneg. rewrite HV. unfold voltage_field.
      pose proof (byte_val_range (byte_at data 12)).
      pose proof (byte_val_range (byte_at data 13)).
      pose proof (byte_val_range (byte_at data 14)).
      pose proof (byte_val_range (byte_at data 15)).
      assert (E8 : 2 ^ 8 = 256) by reflexivity.
      assert (E16 : 2 ^ 16 = 65536) by reflexivity.
      assert (E24 : 2 ^ 24 = 16777216) by reflexivity.
      assert (E63 : 2 ^ 63 = 9223372036854775808) by reflexivity.
      lia. }
    destruct HVn as [->|(m & e & -> & _)]; reflexivity.
  - intros Hz. rewrite HW, HV, Hz. change (of_int 0) with fzero.
    destruct Hnn as [->|(m & e & -> & _)]; reflexivity.
Qed.

Lemma parseBatteryInfo_zero_watt_witness :
  exists b : BatteryInfo,
    parseBatteryInfo (mkSlice (replicate 104 x00) []) = Ok b /\
    Current b = fzero /\ Watt b = fzero.
Proof.
  destruct (parseBatteryInfo_zero_watt (replicate 104 x00) []) as (b & Hb & H & _);
    [vm_compute; lia|].
  exists b. split; [exact Hb|]. apply H. reflexivity.
Defined.

(** X19. [getBatteryStatus] on any record returns "Full Charge",
    "Standby", "Charging", "Discharging" or the empty string, and the empty
    string exactly when the current is NaN and neither override applies. *)
Theorem getBatteryStatus_outcomes (battery : BatteryInfo) :
  (getBatteryStatus battery = "Full Charge"%string \/
   getBatteryStatus battery = "Standby"%string \/
   getBatteryStatus battery = "Charging"%string \/
   getBatteryStatus battery = "Discharging"%string \/
   getBatteryStatus battery = EmptyString) /\
  (getBatteryStatus battery = EmptyString <->
   Current battery = S754_nan /\ SOC battery < 100 /\ BatteryState battery <> 4).
Proof.
  rewrite !getBatteryStatus_unfold.
  destruct ((100 <=? SOC battery) || (BatteryState battery =? 4))%bool eqn:Eo.
  - split; [auto|]. split; [discriminate|].
    intros (_ & H1 & H2). apply orb_true_iff in Eo as [E|E];
      [apply Z.leb_le in E; lia | apply Z.eqb_eq in E; lia].
  - apply orb_false_iff in Eo as [E1 E2].
    apply Z.leb_gt in E1. apply Z.eqb_neq in E2.
    destruct (Current battery) as [[]|[]| |[] m e]; simpl;
      (split; [auto 6|]); split; try discriminate; try (intros [? _]; discriminate);
      auto.
Qed.

(** * Further properties of parseVersion *)

(** X20. The first eight bytes of a version response are never read. *)
Theorem parseVersion_header (h1 h2 rest spare : list byte) :
  length h1 = 8%nat -> length h2 = 8%nat ->
  parseVersion (mkSlice (h1 ++ rest) spare) =
  parseVersion (mkSlice (h2 ++ rest) spare).
Proof.
  intros H1 H2. unfold parseVersion.
  rewrite !bind_slice_from_Ok by (unfold len; simpl; rewrite length_app; lia).
  simpl. now rewrite !drop_app_length' by congruence.
Qed.

Lemma parseVersion_header_witness :
  parseVersion (mkSlice (replicate 8 xff ++ drop 8 version_frame) []) =
  parseVersion (mkSlice (take 8 version_frame ++ drop 8 version_frame) []).
Proof. apply parseVersion_header; reflexivity. Defined.

(** X21. [parseVersion] returns its three strings exactly on the buffers
    of at least 18 bytes, whatever their capacity; on the others the
    run-time panics. *)
Theorem parseVersion_Ok_iff (data : Slice) :
  ((exists r, parseVersion data = Ok r) <-> (18 <= len data)%nat) /\
  (parseVersion data = Err Panic <-> (len data < 18)%nat) /\
  parseVersion data <> Err Fatal.
Proof.
  destruct (le_lt_dec 18 (len data)) as [Hle|Hlt].
  - rewrite (parseVersion_long data Hle).
    repeat split; try discriminate; try lia; eauto.
  - rewrite (parseVersion_short data Hlt).
    repeat split; try discriminate; try lia; eauto.
    intros [r Hr]. discriminate.
Qed.

(** X22. The firmware version is the three big-endian 16-bit numbers at
    offsets 8, 10 and 12 in decimal, joined by dots; the manufacture date is
    the 16-bit number at offset 14 and the bytes 16 and 17, joined by
    dashes. *)
Theorem parseVersion_numbers (data spare : list byte) :
  (18 <= length data)%nat ->
  exists hardwareVersion : string,
    parseVersion (mkSlice data spare) =
    Ok (String.append (Sprintf_d (be16_at data 8))
          (String.append "."
             (String.append (Sprintf_d (be16_at data 10))
                (String.append "." (Sprintf_d (be16_at data 12))))),
        String.append (Sprintf_d (be16_at data 14))
          (String.append "-"
             (String.append (Sprintf_d (byte_val (byte_at data 16)))
                (String.append "-" (Sprintf_d (byte_val (byte_at data 17)))))),
        hardwareVersion).
Proof.
  intros Hlen. exists (spec_hardwareVersion data).
  now apply (parseVersion_long (mkSlice data spare)).
Qed.

Lemma parseVersion_numbers_witness :
  exists hardwareVersion : string,
    parseVersion (mkSlice version_frame []) =
    Ok ("1.2.3", "2024-5-17", hardwareVersion)%string.
Proof. apply (parseVersion_numbers version_frame []). vm_compute. lia. Defined.

Lemma even_positions_length {A : Type} (n : nat) :
  forall l : list A,
    (length l <= n)%nat -> (2 * length (even_positions l) <= length l + 1)%nat.
Proof.
  induction n as [|n IH]; intros l Hl.
  - destruct l; simpl in *; lia.
  - destruct l as [|x [|y l]]; simpl in *; try lia.
    specialize (IH l ltac:(lia)). lia.
Qed.

Lemma string_of_bytes_length (l : list byte) :
  String.length (string_of_bytes l) = length l.
Proof. induction l as [|b l IH]; simpl; [reflexivity|now rewrite IH]. Qed.

Lemma ascii_of_byte_code (b : byte) :
  Z.of_N (N_of_ascii (ascii_of_byte b)) = byte_val b.
Proof. destruct b; reflexivity. Qed.

Lemma string_of_bytes_chars (l : list byte) (c : ascii) :
  In c (chars (string_of_bytes l)) -> exists b, In b l /\ c = ascii_of_byte b.
Proof.
  induction l as [|b l IH]; simpl; [tauto|].
  intros [<-|H]; [eauto|]. destruct (IH H) as (b' & Hb' & ->). eauto.
Qed.

(** X23. The hardware version holds only characters between 0x20 and
    0x7E, and at most one for every two bytes of the buffer after the
    header. *)
Theorem parseVersion_hardwareVersion_chars (data spare : list byte) :
  (18 <= length data)%nat ->
  exists firmwareVersion manufactureDate hardwareVersion : string,
    parseVersion (mkSlice data spare) =
      Ok (firmwareVersion, manufactureDate, hardwareVersion) /\
    (2 * String.length hardwareVersion <= length data - 8 + 1)%nat /\
    forall c : ascii,
      In c (chars hardwareVersion) -> 32 <= Z.of_N (N_of_ascii c) <= 126.
Proof.
  intros Hlen. eexists _, _, (spec_hardwareVersion data).
  split; [now apply (parseVersion_long (mkSlice data spare))|].
  unfold spec_hardwareVersion. split.
  - rewrite string_of_bytes_length.
    pose proof (List.filter_length_le printable (even_positions (drop 8 data))) as Hf.
    pose proof (even_positions_length (length (drop 8 data)) (drop 8 data)
                  ltac:(lia)) as He.
    rewrite length_drop in He. lia.
  - intros c Hc. apply string_of_bytes_chars in Hc as (b & Hb & ->).
    apply List.filter_In in Hb as [_ Hp]. unfold printable in Hp.
    apply andb_true_iff in Hp as [H1 H2].
    apply Z.leb_le in H1, H2. rewrite ascii_of_byte_code.
    change 0x20 with 32 in H1. change 0x7e with 126 in H2. lia.
Qed.

Lemma parseVersion_hardwareVersion_chars_witness :
  exists firmwareVersion manufactureDate hardwareVersion : string,
    parseVersion (mkSlice version_frame []) =
      Ok (firmwareVersion, manufactureDate, hardwareVersion) /\
    (2 * String.length hardwareVersion <= length version_frame - 8 + 1)%nat.
Proof.
  destruct (parseVersion_hardwareVersion_chars version_frame [])
    as (fw & d & hw & H & Hl & _); [vm_compute; lia|].
  exists fw, d, hw. auto.
Defined.

(** * Further properties of the poll sequencer *)

Section SequencerRounds.
Context {T : Type} (char : Transport T).

Ltac poll_cases name cmd st :=
  unfold poll;
  destruct (DecodeString cmd) as [?commandBytes|] eqn:?Hd;
  [ unfold mbind, IO_bind, EnableNotifications, WriteWithoutResponse, Sleep,
      Printf, mret, IO_ret;
    destruct (enableNotifications char (notificationHandler <$> Some name) st)
      as [?st [?e|]];
    [ | destruct (writeWithoutResponse char _ _) as [?st [?e|]];
        [ | destruct (enableNotifications char (notificationHandler <$> None) _)
              as [?st [?e|]] ] ]
  | unfold Printf ].


Lemma command_of_In (order : list (string * string)) (name cmd : string)
    (commandBytes : list byte) :
  In (name, cmd) order -> DecodeString cmd = Some commandBytes ->
  command_of order name commandBytes = true.
Proof.
  intros Hin Hd. unfold command_of. apply existsb_exists.
  exists (name, cmd). split; [exact Hin|]. cbn [fst snd].
  rewrite String.eqb_refl. now rewrite bool_decide_eq_true_2.
Qed.

Lemma poll_writes_subscribed (order : list (string * string))
    (name cmd : string) (st : T) (rest : list Event) (subscribed : option string) :
  In (name, cmd) order ->
  writes_subscribed order subscribed (snd (poll char name cmd st) ++ rest) =
  writes_subscribed order None rest.
Proof.
  intros Hin. poll_cases name cmd st; try reflexivity;
    cbn [snd app writes_subscribed];
    now rewrite (command_of_In order name cmd _ Hin Hd).
Qed.




(** X26. In every run, whatever fails, the bytes of a command are written
    only directly after the subscription of the handler of that very
    command has succeeded: a command of the catalog the order is taken
    from. *)
Theorem readBMS_writes_subscribed (catalog order : list (string * string))
    (st : T) :
  (forall entry, In entry order -> In entry catalog) ->
  writes_subscribed catalog None (snd (readBMS char order st)) = true.
Proof.
  revert st. induction order as [|[name cmd] order IH]; intros st Hin;
    [reflexivity|].
  rewrite readBMS_cons.
  pose proof (poll_writes_subscribed catalog name cmd st) as Hp.
  destruct (poll char name cmd st) as [[u st1] log1].
  specialize (IH st1 ltac:(intros entry He; apply Hin; now right)).
  destruct (readBMS char order st1) as [[b st2] log2].
  simpl in *. rewrite Hp; [exact IH|]. apply Hin. now left.
Qed.


End SequencerRounds.


Lemma readBMS_writes_subscribed_witness :
  writes_subscribed catalog_order None
    (snd (readBMS scripted catalog_order first_write_fails)) = true.
Proof. apply readBMS_writes_subscribed. intros entry He. exact He. Defined.

